(** * Wellness session platform: editor state machine, session routes, auth gate

    A shallow embedding of the session editor (React component
    [SessionEditor]), of the Express routes over the session collection, of
    the Mongoose schema of a session, of the bearer-token middleware and of
    the response interceptor of the API client, followed by the properties
    of the specification that were checked against them.

    How the code is read:
    - strings are sequences of UTF-16 code units; [toLowerCase] and the
      parser behind [new URL] belong to the host and are parameters;
    - the editor is a state machine over the React state variables, the
      table of pending timeouts, the clock (in milliseconds) and the
      requests in flight; a handler and the render that follows it are one
      step, and a timeout runs when the clock reaches its deadline;
    - the collection is a finite map from identifiers to documents; the
      setters and validators are those the schema options of [Session.js]
      ask Mongoose for;
    - [jwt.verify] is a parameter of the middleware. *)

From Stdlib Require Import ZArith NArith QArith Qround Lia List String Ascii Bool.
From stdpp Require Import gmap strings list sorting.

Local Open Scope Z_scope.

(** ** JavaScript strings

    A JavaScript string is a sequence of UTF-16 code units. *)

Module Js.

Definition jsstring := list N.

(** A string literal of the source, all of whose characters are ASCII. *)
Definition lit (s : string) : jsstring :=
  List.map N_of_ascii (list_ascii_of_string s).

(** ECMAScript [LineTerminator]. *)
Definition is_line_terminator (c : N) : bool :=
  ((c =? 10) || (c =? 13) || (c =? 8232) || (c =? 8233))%N.

(** ECMAScript [WhiteSpace]: TAB, VT, FF, ZWNBSP and the category Zs. *)
Definition is_white_space (c : N) : bool :=
  ((c =? 9) || (c =? 11) || (c =? 12) || (c =? 32) || (c =? 160)
   || (c =? 5760) || ((8192 <=? c) && (c <=? 8202)) || (c =? 8239)
   || (c =? 8287) || (c =? 12288) || (c =? 65279))%N.

(** What [String.prototype.trim] strips from both ends. *)
Definition strippable (c : N) : bool :=
  is_white_space c || is_line_terminator c.

Fixpoint trimStart (s : jsstring) : jsstring :=
  match s with
  | [] => []
  | c :: r => if strippable c then trimStart r else s
  end.

Definition trimEnd (s : jsstring) : jsstring := rev (trimStart (rev s)).

Definition trim (s : jsstring) : jsstring := trimEnd (trimStart s).

(** Truthiness of a string: the empty string is the only falsy one. *)
Definition truthy (s : jsstring) : bool :=
  match s with [] => false | _ :: _ => true end.

Fixpoint startsWith (s p : jsstring) : bool :=
  match p, s with
  | [], _ => true
  | _ :: _, [] => false
  | a :: p', b :: s' => (a =? b)%N && startsWith s' p'
  end.

(** [s.split(sep)] for a separator of one code unit. *)
Fixpoint split (sep : N) (s : jsstring) : list jsstring :=
  match s with
  | [] => [[]]
  | c :: r =>
      if (c =? sep)%N then [] :: split sep r
      else match split sep r with
           | h :: t => (c :: h) :: t
           | [] => [[c]]
           end
  end.

(** [parts.join(sep)]. *)
Fixpoint join (sep : jsstring) (parts : list jsstring) : jsstring :=
  match parts with
  | [] => []
  | [p] => p
  | p :: rest => p ++ sep ++ join sep rest
  end.

End Js.

Import Js.

(** What the code takes from the JavaScript host: the Unicode lower-casing
    of [String.prototype.toLowerCase] and whether [new URL(url)] returns
    (rather than throws). *)
Class Host := {
  toLowerCase : jsstring -> jsstring;
  URL_parses : jsstring -> bool
}.

(** A host for ASCII strings, used to evaluate the definitions on concrete
    inputs: it lower-cases [A]-[Z] and parses any string that has a scheme
    followed by a colon and something after it. *)
Definition ascii_lower (c : N) : N :=
  if ((65 <=? c) && (c <=? 90))%N then (c + 32)%N else c.

Fixpoint has_scheme (s : jsstring) : bool :=
  match s with
  | [] => false
  | c :: r =>
      let c' := ascii_lower c in
      if ((97 <=? c') && (c' <=? 122))%N then
        match r with
        | d :: (_ :: _) => if (d =? 58)%N then true else has_scheme r
        | _ => false
        end
      else false
  end.

#[export] Instance ascii_host : Host := {|
  toLowerCase := List.map ascii_lower;
  URL_parses := has_scheme
|}.

(** ** Shared types *)

Inductive session_status := draft | published.

#[export] Instance session_status_eq_dec : EqDecision session_status.
Proof. solve_decision. Defined.

(** A MongoDB ObjectId, kept abstract as a number. *)
Abbreviation oid := N (only parsing).

(** ** The editor buffer *)

Module Editor.

(** The [session] object of the editor.  Its [title] and [json_file_url]
    are strings in every state (the initial object, an input value, or a
    stored document), so [?.] never meets [undefined]. *)
Record buffer := Buffer {
  _id : option oid;
  title : jsstring;
  tags : list jsstring;
  json_file_url : jsstring;
  status : session_status
}.

Definition default_url : jsstring := lit "https://example.com/data/users.json".

(** The argument of [useState] for [session]. *)
Definition initial_session : buffer :=
  {| _id := None; title := []; tags := []; json_file_url := default_url;
     status := draft |}.

(** The condition under which [autoSave] does nothing:
    [!session.title?.trim() && !session.json_file_url?.trim() &&
     session.tags.length === 0]. *)
Definition empty_session (s : buffer) : bool :=
  negb (truthy (trim (title s))) && negb (truthy (trim (json_file_url s)))
  && (length (tags s) =? 0)%nat.

(** ** The editor component and the browser around it

    [SessionEditor] keeps its state in React state variables; its handlers
    run to completion one at a time, and after each of them React renders
    and runs the effects whose dependencies changed.  The browser side is
    the clock, the table of pending [setTimeout] callbacks and the HTTP
    requests that have been sent and not yet answered. *)

(** What an [autoSave] callback closes over: the values of the render in
    which [useCallback] created it. *)
Record closure := Closure {
  c_session : buffer;
  c_hasUnsavedChanges : bool;
  c_isSaving : bool
}.

(** A pending [setTimeout(() => autoSave(), 5000)]. *)
Record pending := Pending {
  p_id : nat;
  p_deadline : Z;
  p_autoSave : closure
}.

Inductive origin := from_autoSave | from_handleSaveDraft | from_handlePublish.

(** A request in flight: [api.saveDraft(session)] or
    [api.publishSession(session)], with the [session] of the closure that
    sent it, which the continuation after [await] still reads. *)
Record request := Request {
  r_origin : origin;
  r_session : buffer
}.

Inductive toast :=
| toast_success (message : string)
| toast_error (message : string).

Record editor := Editor {
  (* React state *)
  session : buffer;
  session_gen : nat;            (* identity of the [session] object *)
  tagInput : jsstring;
  isSaving : bool;
  lastSaved : option Z;
  hasUnsavedChanges : bool;
  autoSaveTimer : option nat;
  (* the auto-save effect: dependencies of its last run, timer its cleanup clears *)
  effect_deps : nat * bool * bool;
  effect_timer : option nat;
  (* browser *)
  now : Z;
  timeouts : list pending;
  next_timeout : nat;
  inflight : list request;
  toasts : list toast;
  mounted : bool
}.

(** The delay given to [setTimeout], in milliseconds. *)
Definition delay : Z := 5000.

(** A new session: the initial values of the state variables, after the
    first render and its effects (no timer: nothing is unsaved).  Timer
    handles of a browser are positive, so the first one is 1. *)
Definition initial (t0 : Z) : editor :=
  {| session := initial_session; session_gen := 0; tagInput := [];
     isSaving := false; lastSaved := None; hasUnsavedChanges := false;
     autoSaveTimer := None;
     effect_deps := (0%nat, false, false); effect_timer := None;
     now := t0; timeouts := []; next_timeout := 1; inflight := [];
     toasts := []; mounted := true |}.

Section Setters.
Variable e : editor.

(** [setSession(next)]: a new object each time. *)
Definition setSession (s : buffer) : editor :=
  {| session := s; session_gen := S (session_gen e); tagInput := tagInput e;
     isSaving := isSaving e; lastSaved := lastSaved e;
     hasUnsavedChanges := hasUnsavedChanges e; autoSaveTimer := autoSaveTimer e;
     effect_deps := effect_deps e; effect_timer := effect_timer e;
     now := now e; timeouts := timeouts e; next_timeout := next_timeout e;
     inflight := inflight e; toasts := toasts e; mounted := mounted e |}.

Definition setTagInput (v : jsstring) : editor :=
  {| session := session e; session_gen := session_gen e; tagInput := v;
     isSaving := isSaving e; lastSaved := lastSaved e;
     hasUnsavedChanges := hasUnsavedChanges e; autoSaveTimer := autoSaveTimer e;
     effect_deps := effect_deps e; effect_timer := effect_timer e;
     now := now e; timeouts := timeouts e; next_timeout := next_timeout e;
     inflight := inflight e; toasts := toasts e; mounted := mounted e |}.

Definition setIsSaving (b : bool) : editor :=
  {| session := session e; session_gen := session_gen e; tagInput := tagInput e;
     isSaving := b; lastSaved := lastSaved e;
     hasUnsavedChanges := hasUnsavedChanges e; autoSaveTimer := autoSaveTimer e;
     effect_deps := effect_deps e; effect_timer := effect_timer e;
     now := now e; timeouts := timeouts e; next_timeout := next_timeout e;
     inflight := inflight e; toasts := toasts e; mounted := mounted e |}.

Definition setLastSaved (t : option Z) : editor :=
  {| session := session e; session_gen := session_gen e; tagInput := tagInput e;
     isSaving := isSaving e; lastSaved := t;
     hasUnsavedChanges := hasUnsavedChanges e; autoSaveTimer := autoSaveTimer e;
     effect_deps := effect_deps e; effect_timer := effect_timer e;
     now := now e; timeouts := timeouts e; next_timeout := next_timeout e;
     inflight := inflight e; toasts := toasts e; mounted := mounted e |}.

Definition setHasUnsavedChanges (b : bool) : editor :=
  {| session := session e; session_gen := session_gen e; tagInput := tagInput e;
     isSaving := isSaving e; lastSaved := lastSaved e;
     hasUnsavedChanges := b; autoSaveTimer := autoSaveTimer e;
     effect_deps := effect_deps e; effect_timer := effect_timer e;
     now := now e; timeouts := timeouts e; next_timeout := next_timeout e;
     inflight := inflight e; toasts := toasts e; mounted := mounted e |}.

Definition setAutoSaveTimer (t : option nat) : editor :=
  {| session := session e; session_gen := session_gen e; tagInput := tagInput e;
     isSaving := isSaving e; lastSaved := lastSaved e;
     hasUnsavedChanges := hasUnsavedChanges e; autoSaveTimer := t;
     effect_deps := effect_deps e; effect_timer := effect_timer e;
     now := now e; timeouts := timeouts e; next_timeout := next_timeout e;
     inflight := inflight e; toasts := toasts e; mounted := mounted e |}.

Definition set_effect (d : nat * bool * bool) (t : option nat) : editor :=
  {| session := session e; session_gen := session_gen e; tagInput := tagInput e;
     isSaving := isSaving e; lastSaved := lastSaved e;
     hasUnsavedChanges := hasUnsavedChanges e; autoSaveTimer := autoSaveTimer e;
     effect_deps := d; effect_timer := t;
     now := now e; timeouts := timeouts e; next_timeout := next_timeout e;
     inflight := inflight e; toasts := toasts e; mounted := mounted e |}.

Definition set_now (t : Z) : editor :=
  {| session := session e; session_gen := session_gen e; tagInput := tagInput e;
     isSaving := isSaving e; lastSaved := lastSaved e;
     hasUnsavedChanges := hasUnsavedChanges e; autoSaveTimer := autoSaveTimer e;
     effect_deps := effect_deps e; effect_timer := effect_timer e;
     now := t; timeouts := timeouts e; next_timeout := next_timeout e;
     inflight := inflight e; toasts := toasts e; mounted := mounted e |}.

Definition set_timeouts (l : list pending) (next : nat) : editor :=
  {| session := session e; session_gen := session_gen e; tagInput := tagInput e;
     isSaving := isSaving e; lastSaved := lastSaved e;
     hasUnsavedChanges := hasUnsavedChanges e; autoSaveTimer := autoSaveTimer e;
     effect_deps := effect_deps e; effect_timer := effect_timer e;
     now := now e; timeouts := l; next_timeout := next;
     inflight := inflight e; toasts := toasts e; mounted := mounted e |}.

Definition set_inflight (l : list request) : editor :=
  {| session := session e; session_gen := session_gen e; tagInput := tagInput e;
     isSaving := isSaving e; lastSaved := lastSaved e;
     hasUnsavedChanges := hasUnsavedChanges e; autoSaveTimer := autoSaveTimer e;
     effect_deps := effect_deps e; effect_timer := effect_timer e;
     now := now e; timeouts := timeouts e; next_timeout := next_timeout e;
     inflight := l; toasts := toasts e; mounted := mounted e |}.

Definition add_toast (t : toast) : editor :=
  {| session := session e; session_gen := session_gen e; tagInput := tagInput e;
     isSaving := isSaving e; lastSaved := lastSaved e;
     hasUnsavedChanges := hasUnsavedChanges e; autoSaveTimer := autoSaveTimer e;
     effect_deps := effect_deps e; effect_timer := effect_timer e;
     now := now e; timeouts := timeouts e; next_timeout := next_timeout e;
     inflight := inflight e; toasts := toasts e ++ [t]; mounted := mounted e |}.

Definition set_mounted (b : bool) : editor :=
  {| session := session e; session_gen := session_gen e; tagInput := tagInput e;
     isSaving := isSaving e; lastSaved := lastSaved e;
     hasUnsavedChanges := hasUnsavedChanges e; autoSaveTimer := autoSaveTimer e;
     effect_deps := effect_deps e; effect_timer := effect_timer e;
     now := now e; timeouts := timeouts e; next_timeout := next_timeout e;
     inflight := inflight e; toasts := toasts e; mounted := b |}.

End Setters.

Section SessionEditor.
Context `{Host}.

(** *** Browser timers *)

Definition clearTimeout (id : nat) (e : editor) : editor :=
  set_timeouts e
    (List.filter (fun p => negb (p_id p =? id)%nat) (timeouts e))
    (next_timeout e).

Definition setTimeout (c : closure) (ms : Z) (e : editor) : nat * editor :=
  (next_timeout e,
   set_timeouts e
     (timeouts e ++ [Pending (next_timeout e) (now e + ms) c])
     (S (next_timeout e))).

(** *** Rendering

    [autoSave] is re-created by [useCallback] when [session],
    [hasUnsavedChanges] or [isSaving] changed; the timer effect depends on
    [autoSave], [hasUnsavedChanges] and [isSaving]. *)

Definition deps (e : editor) : nat * bool * bool :=
  (session_gen e, hasUnsavedChanges e, isSaving e).

Definition render_closure (e : editor) : closure :=
  Closure (session e) (hasUnsavedChanges e) (isSaving e).

(** The render after a handler: when the dependencies of the timer effect
    changed, the cleanup of its previous run clears that run's timer, and
    the effect runs again:
<<
    if (hasUnsavedChanges && !isSaving) {
      const timer = setTimeout(() => { autoSave(); }, 5000);
      setAutoSaveTimer(timer);
      return () => clearTimeout(timer);
    }
>> *)
Definition commit (e : editor) : editor :=
  if decide (deps e = effect_deps e) then e
  else
    let e1 := match effect_timer e with
              | Some t => clearTimeout t e
              | None => e
              end in
    if hasUnsavedChanges e1 && negb (isSaving e1) then
      let '(t, e2) := setTimeout (render_closure e1) delay e1 in
      set_effect (setAutoSaveTimer e2 (Some t)) (deps e) (Some t)
    else set_effect e1 (deps e) None.

(** Leaving the page: the component unmounts and the cleanup runs. *)
Definition unmount (e : editor) : editor :=
  set_mounted
    (match effect_timer e with
     | Some t => clearTimeout t e
     | None => e
     end) false.

(** *** Sending requests and their continuations *)

Definition send (o : origin) (s : buffer) (e : editor) : editor :=
  set_inflight e (inflight e ++ [Request o s]).

(** [autoSave], up to its [await]. *)
Definition autoSave (c : closure) (e : editor) : editor :=
  if negb (c_hasUnsavedChanges c) || c_isSaving c then e
  else if empty_session (c_session c) then e
  else send from_autoSave (c_session c) (setIsSaving e true).

(** [handleSaveDraft], up to its [await]; [s] is the [session] of the render
    whose button was clicked. *)
Definition handleSaveDraft (s : buffer) (e : editor) : editor :=
  send from_handleSaveDraft s (setIsSaving e true).

Definition validateUrl (url : jsstring) : bool :=
  if URL_parses url
  then startsWith url (lit "http://") || startsWith url (lit "https://")
  else false.

Definition msg_title_required : string := "Title is required for publishing".
Definition msg_url_required : string := "JSON file URL is required for publishing".
Definition msg_url_invalid : string :=
  "Please enter a valid URL (must start with http:// or https://)".

(** [handlePublish], up to its [await]. *)
Definition handlePublish (s : buffer) (e : editor) : editor :=
  if negb (truthy (trim (title s))) then
    add_toast e (toast_error msg_title_required)
  else if negb (truthy (trim (json_file_url s))) then
    add_toast e (toast_error msg_url_required)
  else if negb (validateUrl (json_file_url s)) then
    add_toast e (toast_error msg_url_invalid)
  else send from_handlePublish s (setIsSaving e true).

Definition with_id (s : buffer) (i : oid) : buffer :=
  {| _id := Some i; title := title s; tags := tags s;
     json_file_url := json_file_url s; status := status s |}.

(** [error.message || fallback]. *)
Definition message_or (message fallback : string) : string :=
  if String.eqb message "" then fallback else message.

(** The rest of [autoSave] and [handleSaveDraft] once the request [r] is
    answered with a body whose [session] has identifier [resp]. *)
Definition draft_saved (r : request) (resp : option oid) (e : editor) : editor :=
  let e1 := match _id (r_session r), resp with
            | None, Some i => setSession e (with_id (session e) i)
            | _, _ => e
            end in
  let e2 := setHasUnsavedChanges (setLastSaved e1 (Some (now e))) false in
  let e3 := add_toast e2
              (toast_success
                 (match r_origin r with
                  | from_autoSave => "✨ Auto-saved"
                  | _ => "Draft saved successfully! 📝"
                  end)) in
  setIsSaving e3 false.

Definition draft_failed (r : request) (message : string) (e : editor) : editor :=
  let e1 := add_toast e
              (toast_error
                 (match r_origin r with
                  | from_autoSave => "Auto-save failed"
                  | _ => message_or message "Failed to save draft"
                  end)) in
  setIsSaving e1 false.

(** The rest of [handlePublish]. *)
Definition publish_done (e : editor) : editor :=
  let e1 := setHasUnsavedChanges e false in
  let e2 := add_toast e1 (toast_success "🎉 Session published successfully!") in
  unmount (setIsSaving e2 false).

Definition publish_failed (message : string) (e : editor) : editor :=
  let e1 := add_toast e
              (toast_error (message_or message "Failed to publish session")) in
  setIsSaving e1 false.

(** *** Editing *)

Inductive field :=
| f_title (value : jsstring)
| f_json_file_url (value : jsstring)
| f_tags (value : list jsstring).

(** [{ ...prev, [field]: value }] *)
Definition assign (s : buffer) (f : field) : buffer :=
  match f with
  | f_title v =>
      {| _id := _id s; title := v; tags := tags s;
         json_file_url := json_file_url s; status := status s |}
  | f_json_file_url v =>
      {| _id := _id s; title := title s; tags := tags s;
         json_file_url := v; status := status s |}
  | f_tags v =>
      {| _id := _id s; title := title s; tags := v;
         json_file_url := json_file_url s; status := status s |}
  end.

Definition handleInputChange (f : field) (e : editor) : editor :=
  let e1 := setHasUnsavedChanges (setSession e (assign (session e) f)) true in
  match autoSaveTimer e with
  | Some (S t) => clearTimeout (S t) e1
  | _ => e1
  end.

Definition comma : N := 44%N.

Definition parse_tags (value : jsstring) : list jsstring :=
  List.filter (fun tag => (0 <? length tag)%nat)
    (List.map (fun tag => toLowerCase (trim tag)) (split comma value)).

Definition handleTagInputChange (value : jsstring) (e : editor) : editor :=
  handleInputChange (f_tags (parse_tags value)) (setTagInput e value).

Fixpoint remove_index {A} (i : nat) (l : list A) : list A :=
  match l, i with
  | [], _ => []
  | _ :: r, O => r
  | x :: r, S j => x :: remove_index j r
  end.

Definition removeTag (indexToRemove : nat) (e : editor) : editor :=
  let newTags := remove_index indexToRemove (tags (session e)) in
  let e1 := setSession e (assign (session e) (f_tags newTags)) in
  setHasUnsavedChanges (setTagInput e1 (join (lit ", ") newTags)) true.

(** *** Loading an existing session

    The continuations of [api.getSession(id)] in [fetchSession].  (While
    [isLoading] is set the form is replaced by a placeholder; [isLoading]
    is not kept here.) *)

Definition session_loaded (data : buffer) (updated_at : Z) (e : editor) : editor :=
  setLastSaved
    (setTagInput (setSession e data) (join (lit ", ") (tags data)))
    (Some updated_at).

Definition load_failed (e : editor) : editor :=
  unmount (add_toast e (toast_error "Failed to load session")).

(** *** What can happen to a mounted editor *)

Inductive event :=
| Elapse (dt : Z)
| Fire (id : nat)
| ChangeTitle (value : jsstring)
| ChangeUrl (value : jsstring)
| ChangeTagInput (value : jsstring)
| ClickRemoveTag (index : nat)
| ClickSaveDraft
| ClickPublish
| Resolved (n : nat) (resp : option oid)
| Rejected (n : nat) (message : string)
| Loaded (data : buffer) (updated_at : Z)
| LoadFailed.

(** [disabled] of the two buttons. *)
Definition save_disabled (e : editor) : bool := isSaving e.

Definition publish_disabled (e : editor) : bool :=
  isSaving e || negb (truthy (trim (title (session e))))
  || negb (truthy (trim (json_file_url (session e)))).

(** Time passes without skipping the deadline of a pending timeout; a
    timeout runs once its deadline is reached and leaves the table; a click
    on a disabled button does nothing; an answer takes its request out of
    the requests in flight and runs the continuation; the session asked for
    at mount time arrives, or fails to. *)
Definition step (ev : event) (e : editor) : option editor :=
  if negb (mounted e) then None else
  match ev with
  | Elapse dt =>
      if (0 <? dt) && forallb (fun p => now e + dt <=? p_deadline p) (timeouts e)
      then Some (set_now e (now e + dt)) else None
  | Fire id =>
      match List.find (fun p => (p_id p =? id)%nat) (timeouts e) with
      | Some p =>
          if p_deadline p <=? now e
          then Some (commit (autoSave (p_autoSave p) (clearTimeout id e)))
          else None
      | None => None
      end
  | ChangeTitle v => Some (commit (handleInputChange (f_title v) e))
  | ChangeUrl v => Some (commit (handleInputChange (f_json_file_url v) e))
  | ChangeTagInput v => Some (commit (handleTagInputChange v e))
  | ClickRemoveTag i => Some (commit (removeTag i e))
  | ClickSaveDraft =>
      if save_disabled e then Some e
      else Some (commit (handleSaveDraft (session e) e))
  | ClickPublish =>
      if publish_disabled e then Some e
      else Some (commit (handlePublish (session e) e))
  | Resolved n resp =>
      match inflight e !! n with
      | Some r =>
          let e1 := set_inflight e (delete n (inflight e)) in
          Some (match r_origin r with
                | from_handlePublish => publish_done e1
                | _ => commit (draft_saved r resp e1)
                end)
      | None => None
      end
  | Rejected n message =>
      match inflight e !! n with
      | Some r =>
          let e1 := set_inflight e (delete n (inflight e)) in
          Some (commit (match r_origin r with
                        | from_handlePublish => publish_failed message e1
                        | _ => draft_failed r message e1
                        end))
      | None => None
      end
  | Loaded data updated_at => Some (commit (session_loaded data updated_at e))
  | LoadFailed => Some (load_failed e)
  end.

Fixpoint run (tr : list event) (e : editor) : option editor :=
  match tr with
  | [] => Some e
  | ev :: rest =>
      match step ev e with
      | Some e' => run rest e'
      | None => None
      end
  end.

End SessionEditor.

End Editor.

(** ** The session collection and its routes *)

Module Routes.

Section Schema.
Context `{Host}.

(** A document of the [Session] model. *)
Record Session := {
  _id : oid;
  user_id : oid;
  title : jsstring;
  tags : list jsstring;
  json_file_url : jsstring;
  status : session_status;
  created_at : Z;
  updated_at : Z
}.

(** The object a route hands to Mongoose. *)
Record sessionData := {
  data_user_id : oid;
  data_title : jsstring;
  data_tags : list jsstring;
  data_json_file_url : jsstring;
  data_status : session_status
}.

(** Setters of the schema: [trim: true] on [title] and [json_file_url];
    [trim: true, lowercase: true] on each tag, the setter declared last
    running first. *)
Definition set_title (v : jsstring) : jsstring := trim v.
Definition set_tag (v : jsstring) : jsstring := trim (toLowerCase v).
Definition set_json_file_url (v : jsstring) : jsstring := trim v.

Definition cast (d : sessionData) : sessionData :=
  {| data_user_id := data_user_id d;
     data_title := set_title (data_title d);
     data_tags := List.map set_tag (data_tags d);
     data_json_file_url := set_json_file_url (data_json_file_url d);
     data_status := data_status d |}.

(** [/^https?:\/\/.+/.test(v)]: [.] is any code unit but a line terminator. *)
Definition after (p s : jsstring) : option jsstring :=
  if startsWith s p then Some (drop (length p) s) else None.

Definition slashes_then_dot (s : jsstring) : bool :=
  match after (lit "://") s with
  | Some (c :: _) => negb (is_line_terminator c)
  | _ => false
  end.

Definition test_url (v : jsstring) : bool :=
  match after (lit "http") v with
  | Some r =>
      match r with
      | 115%N :: r' => slashes_then_dot r' || slashes_then_dot r
      | _ => slashes_then_dot r
      end
  | None => false
  end.

(** Validators, per path; [required] of a string fails on the empty string,
    [match] is not applied to the empty string. *)
Definition validate_title (v : jsstring) : option string :=
  if negb (truthy v) then Some "Title is required"
  else if (200 <? length v)%nat then Some "Title cannot exceed 200 characters"
  else None.

Definition validate_tag (v : jsstring) : option string :=
  if (50 <? length v)%nat then Some "Tag cannot exceed 50 characters" else None.

Definition validate_json_file_url (v : jsstring) : option string :=
  if negb (truthy v) then Some "JSON file URL is required"
  else if negb (test_url v) then Some "Please enter a valid URL"
  else None.

(** The messages of the [ValidationError] of a cast object, none if it is
    valid; Mongoose lists the message of the data URL first. *)
Definition validate (d : sessionData) : list string :=
  omap validate_json_file_url [data_json_file_url d]
  ++ omap validate_title [data_title d]
  ++ omap validate_tag (data_tags d).

End Schema.

(** What a route sends back. *)
Inductive reply :=
| json_saved (message : string) (session : Session)   (* 200 *)
| json_session (session : Session)                    (* 200 *)
| json_message (message : string)                     (* 200 *)
| json_error (code : nat) (error : string).

Definition status_code (r : reply) : nat :=
  match r with
  | json_error code _ => code
  | _ => 200%nat
  end.

(** The fields the two POST routes read from [req.body]; [None] stands for
    a field that is missing (for [req_id], missing or empty; for [req_tags],
    not an array). *)
Record body := {
  req_id : option oid;
  req_title : option jsstring;
  req_tags : option (list jsstring);
  req_json_file_url : option jsstring
}.

Section Handlers.
Context `{Host}.

(** [value || fallback] *)
Definition or_default (v : option jsstring) (fallback : jsstring) : jsstring :=
  match v with
  | Some s => if truthy s then s else fallback
  | None => fallback
  end.

(** [!value || !value.trim()] *)
Definition blank (v : option jsstring) : bool :=
  match v with
  | Some s => negb (truthy s) || negb (truthy (trim s))
  | None => true
  end.

(** [Array.isArray(tags) ? tags.filter(tag => tag.trim()) : []] *)
Definition kept_tags (v : option (list jsstring)) : list jsstring :=
  match v with
  | Some l => List.filter (fun tag => truthy (trim tag)) l
  | None => []
  end.

Definition validation_error (messages : list string) : reply :=
  json_error 400 (String.concat ", " messages).

Definition not_found : reply := json_error 404 "Session not found".

(** [new Session(data); await session.save()]: validation, then an insert
    under a new identifier. *)
Definition create (t : Z) (d : sessionData) (db : gmap N Session)
  : list string + Session * gmap N Session :=
  let d' := cast d in
  match validate d' with
  | [] =>
      let s := {| _id := fresh (dom db); user_id := data_user_id d';
                  title := data_title d'; tags := data_tags d';
                  json_file_url := data_json_file_url d';
                  status := data_status d';
                  created_at := t; updated_at := t |} in
      inr (s, <[_id s := s]> db)
  | messages => inl messages
  end.

(** [Session.findOneAndUpdate({ _id: id, user_id }, data,
    { new: true, runValidators: true })]: the update validators run before
    the query; [None] when no document matches. *)
Definition findOneAndUpdate (t : Z) (id user : oid) (d : sessionData)
    (db : gmap N Session)
  : list string + option Session * gmap N Session :=
  let d' := cast d in
  match validate d' with
  | [] =>
      match db !! id with
      | Some old =>
          if decide (user_id old = user) then
            let s := {| _id := _id old; user_id := data_user_id d';
                        title := data_title d'; tags := data_tags d';
                        json_file_url := data_json_file_url d';
                        status := data_status d';
                        created_at := created_at old; updated_at := t |} in
            inr (Some s, <[id := s]> db)
          else inr (None, db)
      | None => inr (None, db)
      end
  | messages => inl messages
  end.

(** The part the two POST routes share, from [let session;] on. *)
Definition upsert (message : string) (t : Z) (id : option oid) (user : oid)
    (d : sessionData) (db : gmap N Session) : reply * gmap N Session :=
  match id with
  | Some i =>
      match findOneAndUpdate t i user d db with
      | inr (Some s, db') => (json_saved message s, db')
      | inr (None, db') => (not_found, db')
      | inl messages => (validation_error messages, db)
      end
  | None =>
      match create t d db with
      | inr (s, db') => (json_saved message s, db')
      | inl messages => (validation_error messages, db)
      end
  end.

(** [POST /my-sessions/save-draft], for the authenticated [user], at time [t]. *)
Definition save_draft (user : oid) (t : Z) (b : body) (db : gmap N Session)
  : reply * gmap N Session :=
  let data :=
    {| data_user_id := user;
       data_title := or_default (req_title b) (lit "Untitled Session");
       data_tags := kept_tags (req_tags b);
       data_json_file_url := or_default (req_json_file_url b) [];
       data_status := draft |} in
  upsert "Draft saved successfully" t (req_id b) user data db.

(** [POST /my-sessions/publish] *)
Definition publish (user : oid) (t : Z) (b : body) (db : gmap N Session)
  : reply * gmap N Session :=
  if blank (req_title b) then
    (json_error 400 "Title is required for publishing", db)
  else if blank (req_json_file_url b) then
    (json_error 400 "JSON file URL is required for publishing", db)
  else
    let data :=
      {| data_user_id := user;
         data_title := trim (default [] (req_title b));
         data_tags := kept_tags (req_tags b);
         data_json_file_url := trim (default [] (req_json_file_url b));
         data_status := published |} in
    upsert "Session published successfully" t (req_id b) user data db.

(** [GET /my-sessions/:id] *)
Definition get_one (user id : oid) (db : gmap N Session) : reply :=
  match db !! id with
  | Some s => if decide (user_id s = user) then json_session s else not_found
  | None => not_found
  end.

(** [DELETE /my-sessions/:id] *)
Definition delete_one (user id : oid) (db : gmap N Session)
  : reply * gmap N Session :=
  match db !! id with
  | Some s =>
      if decide (user_id s = user)
      then (json_message "Session deleted successfully", delete id db)
      else (not_found, db)
  | None => (not_found, db)
  end.

(** The [pagination] object of [GET /sessions] and [GET /my-sessions], from
    [parseInt(page)], [parseInt(limit)] and the count of matching documents;
    [total / parseInt(limit)] is a division of numbers, not of integers. *)
Record pagination := {
  currentPage : Z;
  totalPages : Z;
  totalSessions : Z;
  hasNextPage : bool
}.

Definition paginate (page limit total : Z) : pagination :=
  {| currentPage := page;
     totalPages := Qceiling (inject_Z total / inject_Z limit);
     totalSessions := total;
     hasNextPage := page * limit <? total |}.

(** A request to one of the routes that write, already authenticated. *)
Inductive write :=
| SaveDraft (user : oid) (t : Z) (b : body)
| Publish (user : oid) (t : Z) (b : body)
| Delete (user id : oid).

Definition handle (w : write) (db : gmap N Session) : reply * gmap N Session :=
  match w with
  | SaveDraft user t b => save_draft user t b db
  | Publish user t b => publish user t b db
  | Delete user id => delete_one user id db
  end.

Definition serve (ws : list write) (db : gmap N Session) : gmap N Session :=
  foldl (fun db w => snd (handle w db)) db ws.

End Handlers.

End Routes.

(** ** The bearer-token middleware *)

Module Auth.

(** What [jwt.verify(token, process.env.JWT_SECRET)] does: it returns the
    decoded payload, of which the middleware reads [userId], or throws an
    error, of which the middleware reads [name]. *)
Inductive verified :=
| decoded (userId : oid)
| throws (name : string).

(** The middleware either calls [next()] with [req.user] set, or answers. *)
Inductive outcome :=
| next (user : oid)
| respond (code : nat) (error : string).

Section Middleware.
Variable verify : jsstring -> verified.
(** [User.findById(id)]: whether the user still exists. *)
Variable users : gset N.

Definition space : N := 32%N.

(** [authHeader && authHeader.split(' ')[1]], [None] standing for
    [undefined]. *)
Definition token_of (authHeader : option jsstring) : option jsstring :=
  match authHeader with
  | Some h => if truthy h then split space h !! 1%nat else Some h
  | None => None
  end.

Definition authenticateToken (authHeader : option jsstring) : outcome :=
  match token_of authHeader with
  | Some ((_ :: _) as token) =>
      match verify token with
      | decoded userId =>
          if decide (userId ∈ users) then next userId
          else respond 401 "Invalid token. User not found."
      | throws name =>
          if String.eqb name "TokenExpiredError" then
            respond 401 "Token expired. Please login again."
          else if String.eqb name "JsonWebTokenError" then
            respond 403 "Invalid token."
          else respond 500 "Authentication error"
      end
  | _ => respond 401 "Access denied. No token provided."
  end.

End Middleware.

End Auth.

(** ** The API client *)

Module Api.

(** The body of [api.saveDraft(session)] and [api.publishSession(session)]
    as the routes read it: the editor's object is posted as it is, so its
    identifier travels under the key [_id], and the key [id] that the routes
    read is not in it. *)
Definition post_body (s : Editor.buffer) : Routes.body :=
  {| Routes.req_id := None;
     Routes.req_title := Some (Editor.title s);
     Routes.req_tags := Some (Editor.tags s);
     Routes.req_json_file_url := Some (Editor.json_file_url s) |}.

(** The part of the browser the response interceptor touches. *)
Record browser := {
  localStorage : gmap string string;
  href : string
}.

(** The error handler of the response interceptor, for an answer with the
    given status ([None]: no answer at all).  It clears the stored token and
    user and goes to the login page on 401; the promise is rejected with the
    message in all cases. *)
Definition on_error (status : option nat) (b : browser) : browser :=
  match status with
  | Some code =>
      if (code =? 401)%nat then
        {| localStorage :=
             delete "wellness_user" (delete "wellness_token" (localStorage b));
           href := "/login" |}
      else b
  | None => b
  end.

End Api.

(** ** The routes that list sessions *)

Module Listing.
Import Routes.

(** What [populate('user_id', 'email created_at')] puts in place of the
    owner's identifier. *)
Record author := {
  author_id : oid;
  email : jsstring;
  author_created_at : Z
}.

(** A listed session with its owner populated ([None]: no such user). *)
Record listed := {
  session : Session;
  owner : option author
}.

(** [res.json({ sessions, pagination })] *)
Record listing := {
  sessions : list listed;
  pagination : pagination
}.

(** [sort({ updated_at: -1 })] *)
Definition newer_first (a b : Session) : Prop := updated_at b <= updated_at a.

#[export] Instance newer_first_dec a b : Decision (newer_first a b).
Proof. unfold newer_first. apply _. Defined.

(** [limit(parseInt(limit)).skip((parseInt(page) - 1) * parseInt(limit))],
    for a page and a limit of at least one. *)
Definition page_of (page limit : Z) (l : list Session) : list Session :=
  take (Z.to_nat limit) (drop (Z.to_nat ((page - 1) * limit)) l).

Section Queries.
Context `{Host}.
(** [{ $text: { $search: search } }]: which documents a search matches is
    the text index's business. *)
Variable text_matches : jsstring -> Session -> bool.
(** The collection of users, as far as [populate] reads it. *)
Variable users : gmap N author.

(** [Session.find(query).sort({ updated_at: -1 })]: the documents that
    match, newest first (documents updated at the same time in some fixed
    order). *)
Definition find_sorted (matches : Session -> bool) (db : gmap N Session)
  : list Session :=
  merge_sort newer_first (List.filter matches (map_to_list db).*2).

(** [req.query] of [GET /sessions], [page] and [limit] after their defaults
    and [parseInt]. *)
Record sessions_query := {
  page : Z;
  limit : Z;
  q_tags : option jsstring;
  q_search : option jsstring
}.

(** [tags.split(',').map(tag => tag.trim().toLowerCase())] *)
Definition tagArray (tags : jsstring) : list jsstring :=
  List.map (fun tag => toLowerCase (trim tag)) (split Editor.comma tags).

(** [{ status: 'published', tags: { $in: tagArray }, $text: ... }], the two
    last only for a non-empty [tags] and [search]. *)
Definition matches_published (q : sessions_query) (s : Session) : bool :=
  bool_decide (status s = published)
  && match q_tags q with
     | Some t =>
         if truthy t
         then existsb (fun g => bool_decide (g ∈ tagArray t)) (tags s)
         else true
     | None => true
     end
  && match q_search q with
     | Some v => if truthy v then text_matches v s else true
     | None => true
     end.

Definition populate (s : Session) : listed :=
  {| session := s; owner := users !! user_id s |}.

(** [GET /sessions] *)
Definition get_sessions (q : sessions_query) (db : gmap N Session) : listing :=
  let found := find_sorted (matches_published q) db in
  {| sessions := List.map populate (page_of (page q) (limit q) found);
     pagination := paginate (page q) (limit q) (Z.of_nat (length found)) |}.

(** [req.query] of [GET /my-sessions]. *)
Record my_query := {
  my_status : option jsstring;
  my_page : Z;
  my_limit : Z
}.

(** [status && ['draft', 'published'].includes(status)] *)
Definition status_named (v : option jsstring) : option session_status :=
  match v with
  | Some s =>
      if bool_decide (s = lit "draft") then Some draft
      else if bool_decide (s = lit "published") then Some published
      else None
  | None => None
  end.

Definition matches_own (user : oid) (q : my_query) (s : Session) : bool :=
  bool_decide (user_id s = user)
  && match status_named (my_status q) with
     | Some st => bool_decide (status s = st)
     | None => true
     end.

(** [GET /my-sessions], for the authenticated [user]; the owner is not
    populated here. *)
Definition get_my_sessions (user : oid) (q : my_query) (db : gmap N Session)
  : list Session * Routes.pagination :=
  let found := find_sorted (matches_own user q) db in
  (page_of (my_page q) (my_limit q) found,
   paginate (my_page q) (my_limit q) (Z.of_nat (length found))).

End Queries.

End Listing.

(** ** The page of one's own sessions *)

Module MySessions.

(** [statusFilter]: ['all'], ['draft'] or ['published']. *)
Inductive statusFilter := all | only (st : session_status).

(** The [params] of [api.getUserSessions(params)]. *)
Definition params (f : statusFilter) : option jsstring :=
  match f with
  | all => None
  | only draft => Some (lit "draft")
  | only published => Some (lit "published")
  end.

Definition has_status (st : session_status) (s : Routes.Session) : bool :=
  bool_decide (Routes.status s = st).

Definition filteredSessions (f : statusFilter) (sessions : list Routes.Session)
  : list Routes.Session :=
  match f with
  | all => sessions
  | only st => List.filter (has_status st) sessions
  end.

Record counts := {
  count_all : nat;
  count_draft : nat;
  count_published : nat
}.

Definition getSessionCounts (sessions : list Routes.Session) : counts :=
  {| count_all := length sessions;
     count_draft := length (List.filter (has_status draft) sessions);
     count_published := length (List.filter (has_status published) sessions) |}.

(** [handleDelete] once [api.deleteSession(id)] has succeeded:
    [sessions.filter(session => session._id !== id)]. *)
Definition deleted (id : oid) (sessions : list Routes.Session)
  : list Routes.Session :=
  List.filter (fun s => negb (bool_decide (Routes._id s = id))) sessions.

End MySessions.

(** ** The public page *)

Module Dashboard.

(** [prev.includes(tag) ? prev.filter(t => t !== tag) : [...prev, tag]] *)
Definition toggleTag (tag : jsstring) (prev : list jsstring) : list jsstring :=
  if bool_decide (tag ∈ prev)
  then List.filter (fun t => negb (bool_decide (t = tag))) prev
  else prev ++ [tag].

(** [tags.add(tag)] on a [Set], which keeps the order of insertion. *)
Definition set_add (acc : list jsstring) (tag : jsstring) : list jsstring :=
  if bool_decide (tag ∈ acc) then acc else acc ++ [tag].

(** The tags of the sessions fetched, each once:
    [Array.from(tags)] after the two [forEach]. *)
Definition allTags (sessions : list Routes.Session) : list jsstring :=
  foldl (fun acc s => foldl set_add acc (Routes.tags s)) [] sessions.

(** The [params] that [handleSearch] hands to [fetchSessions]. *)
Record search_params := {
  search : option jsstring;
  tags : option jsstring
}.

Definition handleSearch (searchTerm : jsstring) (selectedTags : list jsstring)
  : search_params :=
  {| search := if truthy (trim searchTerm) then Some (trim searchTerm) else None;
     tags := if (0 <? length selectedTags)%nat
             then Some (join [Editor.comma] selectedTags) else None |}.

End Dashboard.

(** ** The auth context and the headers of the API client *)

Module AuthContext.

(** The state of [AuthProvider], the browser's storage, and the default
    [Authorization] header of the axios client. *)
Record auth (User : Type) := {
  user : option User;
  token : option string;
  isLoading : bool;
  browser : Api.browser;
  default_header : option string
}.
Arguments user {User}.
Arguments token {User}.
Arguments isLoading {User}.
Arguments browser {User}.
Arguments default_header {User}.

Section Provider.
Context {User : Type}.
(** [JSON.stringify(newUser)] *)
Variable stringify : User -> string.

(** Truthiness of a string. *)
Definition nonempty (s : string) : bool := negb (String.eqb s "").

(** [api.setToken(token)] *)
Definition setToken (t : option string) : option string :=
  match t with
  | Some s => if nonempty s then Some ("Bearer " ++ s)%string else None
  | None => None
  end.

Definition setItem (k v : string) (b : Api.browser) : Api.browser :=
  {| Api.localStorage := <[k := v]> (Api.localStorage b);
     Api.href := Api.href b |}.

Definition removeItem (k : string) (b : Api.browser) : Api.browser :=
  {| Api.localStorage := delete k (Api.localStorage b);
     Api.href := Api.href b |}.

Definition login (newToken : string) (newUser : User) (a : auth User)
  : auth User :=
  {| user := Some newUser; token := Some newToken; isLoading := isLoading a;
     browser := setItem "wellness_user" (stringify newUser)
                  (setItem "wellness_token" newToken (browser a));
     default_header := setToken (Some newToken) |}.

Definition logout (a : auth User) : auth User :=
  {| user := None; token := None; isLoading := isLoading a;
     browser := removeItem "wellness_user"
                  (removeItem "wellness_token" (browser a));
     default_header := setToken None |}.

(** [isAuthenticated: !!token] *)
Definition isAuthenticated (a : auth User) : bool :=
  match token a with
  | Some t => nonempty t
  | None => false
  end.

(** The [Authorization] header of a request: the request interceptor puts
    the stored token there, if there is one; otherwise the default stays. *)
Definition authorization (a : auth User) : option string :=
  match Api.localStorage (browser a) !! "wellness_token" with
  | Some t => if nonempty t then Some ("Bearer " ++ t)%string
              else default_header a
  | None => default_header a
  end.

(** [initializeAuth], in two halves: before [await api.getCurrentUser()],
    which is only called when both items are stored and not empty ... *)
Definition stored (a : auth User) : option (string * string) :=
  match Api.localStorage (browser a) !! "wellness_token",
        Api.localStorage (browser a) !! "wellness_user" with
  | Some t, Some u => if nonempty t && nonempty u then Some (t, u) else None
  | _, _ => None
  end.



End Provider.

End AuthContext.
(** ** Invariants of the editor *)

Section EditorInvariants.
Context `{Host}.
Import Editor.

(** The only timeout that can be pending is the one of the last run of the
    effect. *)
Definition weak_timers (e : editor) : Prop :=
  timeouts e = [] \/
  exists id d c, timeouts e = [Pending id d c] /\ effect_timer e = Some id.

(** ... and it closes over the values of the current render, which has
    unsaved changes and no save in flight; its handle is older than the
    next one the browser gives out. *)
Definition timers_ok (e : editor) : Prop :=
  timeouts e = [] \/
  exists id d, timeouts e = [Pending id d (render_closure e)] /\
               effect_timer e = Some id /\
               hasUnsavedChanges e = true /\ isSaving e = false /\
               (id < next_timeout e)%nat.

(** [isSaving] is set exactly while one request is in flight. *)
Definition flight_ok (e : editor) : Prop :=
  (isSaving e = false /\ inflight e = []) \/
  (isSaving e = true /\ exists r, inflight e = [r]).

Definition inv (e : editor) : Prop :=
  flight_ok e /\
  (mounted e = true -> effect_deps e = deps e /\ timers_ok e).

End EditorInvariants.

(** ** Notions used to state the properties

    Events that edit a field of the buffer, and those that leave the data
    URL blank. *)
Definition is_edit (ev : Editor.event) : bool :=
  match ev with
  | Editor.ChangeTitle _ | Editor.ChangeUrl _ | Editor.ChangeTagInput _
  | Editor.ClickRemoveTag _ => true
  | _ => false
  end.

Definition clears_url (ev : Editor.event) : bool :=
  match ev with
  | Editor.ChangeUrl value => negb (truthy (trim value))
  | _ => false
  end.

(** The editor of a new session loads nothing. *)
Definition is_load (ev : Editor.event) : bool :=
  match ev with
  | Editor.Loaded _ _ | Editor.LoadFailed => true
  | _ => false
  end.

(** An edit, up to the render that follows it. *)
Definition edited `{Host} (ev : Editor.event) (e : Editor.editor)
  : option Editor.editor :=
  match ev with
  | Editor.ChangeTitle v => Some (Editor.handleInputChange (Editor.f_title v) e)
  | Editor.ChangeUrl v =>
      Some (Editor.handleInputChange (Editor.f_json_file_url v) e)
  | Editor.ChangeTagInput v => Some (Editor.handleTagInputChange v e)
  | Editor.ClickRemoveTag i => Some (Editor.removeTag i e)
  | _ => None
  end.


(** A document is complete when it has a title and a data URL of the form
    the schema asks for. *)
Definition complete (s : Routes.Session) : Prop :=
  Routes.title s <> [] /\ Routes.json_file_url s <> [] /\
  Routes.test_url (Routes.json_file_url s) = true.

Definition published_complete (db : gmap N Routes.Session) : Prop :=
  forall i s, db !! i = Some s -> Routes.status s = published -> complete s.

(** A collection holds each document under its own identifier. *)
Definition keyed (db : gmap N Routes.Session) : Prop :=
  forall i s, db !! i = Some s -> Routes._id s = i.

(** Two request bodies used below. *)
(** What the editor posts for a buffer whose fields are all empty. *)
Definition empty_body : Routes.body :=
  Api.post_body
    (Editor.assign Editor.initial_session (Editor.f_json_file_url [])).

Definition morning_flow : Routes.body :=
  {| Routes.req_id := None;
     Routes.req_title := Some (lit "Morning Flow");
     Routes.req_tags := Some [lit "yoga"; lit "calm"];
     Routes.req_json_file_url := Some (lit "https://example.com/flow.json") |}.

(** Three published sessions, two of user 1 and one of user 2, and a page
    of one session of each list. *)
Definition three_published : gmap N Routes.Session :=
  Routes.serve
    [Routes.Publish 1%N 10 morning_flow; Routes.Publish 2%N 20 morning_flow;
     Routes.Publish 1%N 30 morning_flow] ∅.

Definition second_of_three : Listing.sessions_query :=
  {| Listing.page := 2; Listing.limit := 1;
     Listing.q_tags := None; Listing.q_search := None |}.

Definition my_first_of_two : Listing.my_query :=
  {| Listing.my_status := None; Listing.my_page := 1; Listing.my_limit := 1 |}.


(** A document as the schema leaves it: a trimmed, non-empty title of at
    most 200 code units, tags of at most 50, and a trimmed data URL that
    matches the pattern. *)
Definition schema_valid (s : Routes.Session) : Prop :=
  Routes.title s <> [] /\ (length (Routes.title s) <= 200)%nat /\
  trim (Routes.title s) = Routes.title s /\
  Forall (fun g => (length g <= 50)%nat) (Routes.tags s) /\
  Routes.json_file_url s <> [] /\
  trim (Routes.json_file_url s) = Routes.json_file_url s /\
  Routes.test_url (Routes.json_file_url s) = true.

(** The requests of [user] that name the document [id]. *)
Definition names_document (user id : oid) (w : Routes.write) : Prop :=
  match w with
  | Routes.SaveDraft u _ b | Routes.Publish u _ b =>
      u = user /\ Routes.req_id b = Some id
  | Routes.Delete u i => u = user /\ i = id
  end.

(** Each request in flight was sent from a buffer with the identifier the
    buffer has now. *)
Definition requests_carry_id (e : Editor.editor) : Prop :=
  Forall (fun r => Editor._id (Editor.r_session r) = Editor._id (Editor.session e))
    (Editor.inflight e).

(** A tag as the tag input produces it, for the host at hand: not empty,
    without comma, trimmed and in lower case. *)
Definition plain_tag `{Host} (g : jsstring) : Prop :=
  g <> [] /\ (Editor.comma ∉ g) /\ trim g = g /\ toLowerCase g = g.

(** Sample data, to evaluate the definitions on. *)
Definition evening_calm : Routes.body :=
  {| Routes.req_id := None;
     Routes.req_title := Some (lit "Evening Calm");
     Routes.req_tags := Some [lit "calm"];
     Routes.req_json_file_url := Some (lit "http://example.org/calm.json") |}.

Definition morning_flow_again : Routes.body :=
  {| Routes.req_id := Some 0%N;
     Routes.req_title := Some (lit "Morning Flow, again");
     Routes.req_tags := Some [lit "yoga"];
     Routes.req_json_file_url := Some (lit "https://example.com/flow.json") |}.

(** User 1 saves a draft at time 10, user 2 publishes a session at 20. *)
Definition sample_writes : list Routes.write :=
  [Routes.SaveDraft 1%N 10 morning_flow; Routes.Publish 2%N 20 evening_calm].

Definition sample_db : gmap N Routes.Session := Routes.serve sample_writes ∅.

Definition first_page : Listing.sessions_query :=
  {| Listing.page := 1; Listing.limit := 20;
     Listing.q_tags := Some (lit "Calm,  relax"); Listing.q_search := None |}.

Definition my_drafts : Listing.my_query :=
  {| Listing.my_status := Some (lit "draft");
     Listing.my_page := 1; Listing.my_limit := 20 |}.

Definition stored_session : AuthContext.auth string :=
  {| AuthContext.user := None; AuthContext.token := None;
     AuthContext.isLoading := true;
     AuthContext.browser :=
       {| Api.localStorage :=
            <["wellness_user" := "{}"]> (<["wellness_token" := "abc.def.ghi"]> ∅);
          Api.href := "/" |};
     AuthContext.default_header := None |}.

(** Evaluation of a closed goal. *)
Ltac by_eval := vm_compute; reflexivity.

(** ** Trimming *)

Section Trim.

Lemma trimStart_head s c r : trimStart s = c :: r -> strippable c = false.
Proof.
  induction s as [| a s IH]; cbn; [done |].
  destruct (strippable a) eqn:E; [exact IH |]. by intros [= <- _].
Qed.

Lemma trimStart_fixed c r : strippable c = false -> trimStart (c :: r) = c :: r.
Proof. intros E. cbn. by rewrite E. Qed.

Lemma trimStart_snoc s c :
  strippable c = false -> trimStart (s ++ [c]) = trimStart s ++ [c].
Proof.
  intros E. induction s as [| a s IH]; cbn; [by rewrite E |].
  by destruct (strippable a).
Qed.

Lemma trimEnd_cons c r :
  strippable c = false -> trimEnd (c :: r) = c :: trimEnd r.
Proof.
  intros E. unfold trimEnd. cbn [rev].
  by rewrite trimStart_snoc, rev_app_distr.
Qed.

Lemma trimStart_trimStart s : trimStart (trimStart s) = trimStart s.
Proof.
  destruct (trimStart s) as [| c r] eqn:E; [done |].
  apply trimStart_fixed. eapply trimStart_head, E.
Qed.

Lemma trimEnd_trimEnd s : trimEnd (trimEnd s) = trimEnd s.
Proof. unfold trimEnd. by rewrite rev_involutive, trimStart_trimStart. Qed.

(** [trim] returns a string that [trim] leaves as it is. *)
Lemma trim_trim s : trim (trim s) = trim s.
Proof.
  unfold trim. destruct (trimStart s) as [| c r] eqn:E; [done |].
  pose proof (trimStart_head _ _ _ E) as Hc.
  rewrite (trimEnd_cons _ _ Hc), (trimStart_fixed _ _ Hc).
  by rewrite <- (trimEnd_cons _ _ Hc), trimEnd_trimEnd.
Qed.

End Trim.
(** ** The invariants hold in every reachable state *)

Section EditorInvariantProofs.
Context `{Host}.
Import Editor.

Lemma timers_ok_weak e : timers_ok e -> weak_timers e.
Proof.
  intros [E | (id & d & E & T & _)]; [by left | right; eauto].
Qed.

Lemma clearTimeout_weak id e : weak_timers e -> weak_timers (clearTimeout id e).
Proof.
  intros [E | (i & d & c & E & T)]; unfold weak_timers; cbn; rewrite E; cbn.
  - by left.
  - destruct (i =? id)%nat; cbn; [by left | right; eauto].
Qed.

Lemma commit_inv e :
  mounted e = true -> weak_timers e -> flight_ok e ->
  (deps e = effect_deps e -> timers_ok e) ->
  inv (commit e).
Proof.
  intros M W F D. unfold commit.
  destruct (decide (deps e = effect_deps e)) as [Eq | Ne].
  - split; [done | intros _; split; [done | auto]].
  - assert (C : timeouts (match effect_timer e with
                          | Some t => clearTimeout t e
                          | None => e
                          end) = []).
    { destruct W as [E | (i & d & c & E & T)].
      - destruct (effect_timer e); cbn; rewrite E; done.
      - rewrite T; cbn. rewrite E; cbn. by rewrite Nat.eqb_refl. }
    assert (P : forall f : editor -> bool,
               (forall t, f (clearTimeout t e) = f e) ->
               f (match effect_timer e with
                  | Some t => clearTimeout t e
                  | None => e
                  end) = f e).
    { intros f Hf. destruct (effect_timer e); auto. }
    rewrite (P hasUnsavedChanges), (P isSaving) by done.
    destruct (hasUnsavedChanges e) eqn:U, (isSaving e) eqn:S; cbn.
    all: split; [destruct (effect_timer e); exact F | intros _; split].
    all: try (destruct (effect_timer e); cbn; unfold deps; cbn; by rewrite ?U, ?S).
    all: try (left; cbn; exact C).
    right. rewrite C. cbn. eexists _, _. split; [| split; [done |]].
    + unfold render_closure. destruct (effect_timer e); cbn; reflexivity.
    + destruct (effect_timer e); cbn; rewrite ?U, ?S; repeat split; lia.
Qed.


Lemma handleInputChange_pre f e :
  inv e -> mounted e = true ->
  let e' := handleInputChange f e in
  mounted e' = true /\ weak_timers e' /\ flight_ok e' /\
  deps e' <> effect_deps e'.
Proof.
  intros [F I] M. destruct (I M) as [D T]. cbn zeta.
  assert (G : forall e1, deps e1 = (S (session_gen e), hasUnsavedChanges e1, isSaving e1) ->
              effect_deps e1 = effect_deps e -> deps e1 <> effect_deps e1).
  { intros e1 E1 E2. rewrite E1, E2, D. unfold deps. intros [=]. lia. }
  unfold handleInputChange.
  destruct (autoSaveTimer e) as [[| t] |]; (split; [exact M | split; [| split]]).
  all: try exact F.
  all: try (apply G; reflexivity).
  all: try apply clearTimeout_weak.
  all: destruct (timers_ok_weak _ T) as [E | (i & d & c & E & X)];
    [by left | right; eauto].
Qed.

Lemma removeTag_pre i e :
  inv e -> mounted e = true ->
  let e' := removeTag i e in
  mounted e' = true /\ weak_timers e' /\ flight_ok e' /\
  deps e' <> effect_deps e'.
Proof.
  intros [F I] M. destruct (I M) as [D T]. cbn zeta.
  split; [exact M | split; [| split; [exact F |]]].
  - destruct (timers_ok_weak _ T) as [E | (j & d & c & E & X)];
      [by left | right; eauto].
  - cbn. rewrite D. unfold deps; cbn. intros [=]. lia.
Qed.

Lemma send_pre o s e :
  inv e -> mounted e = true -> isSaving e = false ->
  let e' := send o s (setIsSaving e true) in
  mounted e' = true /\ weak_timers e' /\ flight_ok e' /\
  deps e' <> effect_deps e'.
Proof.
  intros [F I] M S. destruct (I M) as [D T]. cbn zeta.
  split; [exact M | split; [| split]].
  - destruct (timers_ok_weak _ T) as [E | (j & d & c & E & X)];
      [by left | right; eauto].
  - right. cbn. split; [done |]. destruct F as [[_ E] | [E _]]; [| congruence].
    rewrite E. eauto.
  - cbn. rewrite D. unfold deps; cbn. rewrite S. intros [=].
Qed.

Lemma inv_commit_pre e :
  mounted e = true -> weak_timers e -> flight_ok e ->
  deps e <> effect_deps e -> inv (commit e).
Proof. intros M W F D. apply commit_inv; try done. Qed.

Lemma answered e n r :
  inv e -> mounted e = true -> inflight e !! n = Some r ->
  isSaving e = true /\ inflight e = [r] /\ delete n (inflight e) = [] /\
  timeouts e = [] /\ effect_deps e = deps e.
Proof.
  intros [F I] M L. destruct (I M) as [D T].
  destruct F as [[_ E] | [S [r' E]]]; rewrite E in L; [done |].
  destruct n as [| n]; cbn in L; [| done]. injection L as ->.
  rewrite E. repeat split; try done.
  destruct T as [T | (i & d & _ & _ & _ & S' & _)]; [done | congruence].
Qed.

Theorem step_inv ev e e' : inv e -> step ev e = Some e' -> inv e'.
Proof.
  intros I. unfold step. destruct (mounted e) eqn:M; cbn; [| done].
  pose proof I as [F T']. destruct (T' M) as [D T].
  destruct ev.
  - destruct (_ && _); [| done]. intros [= <-]. split; [exact F | intros _; split; [exact D |]].
    destruct T as [E | (i & d & E & X)]; [by left | right; exists i, d; exact (conj E X)].
  - destruct (List.find _ _) as [p |] eqn:Fd; [| done].
    destruct (p_deadline p <=? now e); [| done]. intros [= <-].
    destruct T as [E | (i & d & E & X & U & S & _)]; [rewrite E in Fd; done |].
    rewrite E in Fd. cbn in Fd. destruct (i =? id)%nat eqn:Ei; [| done].
    injection Fd as <-. apply Nat.eqb_eq in Ei. subst i. cbn [p_autoSave].
    assert (C : timeouts (clearTimeout id e) = []).
    { cbn. rewrite E. cbn. by rewrite Nat.eqb_refl. }
    unfold autoSave, render_closure; cbn [c_hasUnsavedChanges c_isSaving c_session].
    rewrite U, S. cbn. destruct (empty_session (session e)).
    + apply commit_inv; try done; [by left | intros _; by left].
    + apply inv_commit_pre; try done.
      * by left.
      * right. cbn. split; [done |]. destruct F as [[_ F] | [F _]]; [| congruence].
        rewrite F. eauto.
      * cbn. rewrite D. unfold deps. rewrite S. intros [=].
  - intros [= <-]. destruct (handleInputChange_pre (f_title value) e I M) as (? & ? & ? & ?).
    by apply inv_commit_pre.
  - intros [= <-]. destruct (handleInputChange_pre (f_json_file_url value) e I M) as (? & ? & ? & ?).
    by apply inv_commit_pre.
  - intros [= <-]. unfold handleTagInputChange.
    assert (I2 : inv (setTagInput e value)).
    { split; [exact F | intros _; split; [exact D |]].
      destruct T as [E | (i & d & E & X)]; [by left | right; exists i, d; exact (conj E X)]. }
    destruct (handleInputChange_pre (f_tags (parse_tags value)) _ I2 M) as (? & ? & ? & ?).
    by apply inv_commit_pre.
  - intros [= <-]. destruct (removeTag_pre index e I M) as (? & ? & ? & ?).
    by apply inv_commit_pre.
  - unfold save_disabled. destruct (isSaving e) eqn:S; intros [= <-]; [exact I |].
    destruct (send_pre from_handleSaveDraft (session e) e I M S) as (? & ? & ? & ?).
    by apply inv_commit_pre.
  - destruct (publish_disabled e) eqn:P; intros [= <-]; [exact I |].
    unfold publish_disabled in P.
    destruct (isSaving e) eqn:S; [done |]. cbn in P.
    unfold handlePublish.
    assert (K : forall t, inv (commit (add_toast e t))).
    { intros t. apply commit_inv; try done. exact (timers_ok_weak _ T). }
    destruct (negb (truthy (trim (title (session e))))); [apply K |].
    destruct (negb (truthy (trim (json_file_url (session e))))); [apply K |].
    destruct (negb (validateUrl _)); [apply K |].
    destruct (send_pre from_handlePublish (session e) e I M S) as (? & ? & ? & ?).
    by apply inv_commit_pre.
  - destruct (inflight e !! n) as [r |] eqn:L; [| done]. intros [= <-].
    destruct (answered e n r I M L) as (S & E & Dl & C & _). rewrite Dl.
    assert (A : inv (commit (draft_saved r resp (set_inflight e [])))).
    { unfold draft_saved. apply inv_commit_pre.
      - by destruct (_id (r_session r)), resp.
      - left. by destruct (_id (r_session r)), resp.
      - left. by destruct (_id (r_session r)), resp.
      - destruct (_id (r_session r)), resp; cbn; rewrite D; unfold deps;
          rewrite S; intros [=]. }
    destruct (r_origin r); try exact A.
    unfold publish_done, unmount. cbn [effect_timer setIsSaving add_toast setHasUnsavedChanges set_inflight].
    destruct (effect_timer e); (split; [by left | intros [=]]).
  - destruct (inflight e !! n) as [r |] eqn:L; [| done]. intros [= <-].
    destruct (answered e n r I M L) as (S & E & Dl & C & _). rewrite Dl.
    apply inv_commit_pre.
    + by destruct (r_origin r).
    + left. by destruct (r_origin r).
    + left. by destruct (r_origin r).
    + destruct (r_origin r); cbn; rewrite D; unfold deps; rewrite S; intros [=].
  - intros [= <-]. apply inv_commit_pre; try done.
    + exact (timers_ok_weak _ T).
    + cbn. rewrite D. unfold deps. intros [=]. lia.
  - intros [= <-]. unfold load_failed, unmount. cbn [effect_timer add_toast].
    destruct (effect_timer e); (split; [exact F | intros [=]]).
Qed.

Lemma initial_inv t0 : inv (initial t0).
Proof. split; [by left | intros _; split; [done | by left]]. Qed.

Lemma run_inv tr : forall e e', inv e -> run tr e = Some e' -> inv e'.
Proof.
  induction tr as [| ev tr IH]; intros e e' I; cbn.
  - by intros [= <-].
  - destruct (step ev e) as [e1 |] eqn:S; [| done].
    intros R. eapply IH; [| exact R]. eapply step_inv; eauto.
Qed.

End EditorInvariantProofs.

(** ** What rendering and the timers leave alone *)

Section EditorFrames.
Context `{Host}.
Import Editor.

Lemma commit_frame e :
  session (commit e) = session e /\ isSaving (commit e) = isSaving e /\
  hasUnsavedChanges (commit e) = hasUnsavedChanges e /\
  inflight (commit e) = inflight e /\ lastSaved (commit e) = lastSaved e /\
  toasts (commit e) = toasts e /\ now (commit e) = now e /\
  mounted (commit e) = mounted e.
Proof.
  unfold commit, setTimeout. destruct (decide _); [done |].
  destruct (effect_timer e); cbn;
    destruct (hasUnsavedChanges e && negb (isSaving e)); cbn; done.
Qed.

Lemma commit_session e : session (commit e) = session e.
Proof. apply commit_frame. Qed.

Lemma commit_inflight e : inflight (commit e) = inflight e.
Proof. apply commit_frame. Qed.

Lemma commit_isSaving e : isSaving (commit e) = isSaving e.
Proof. apply commit_frame. Qed.

Lemma handleInputChange_frame f e :
  let e' := handleInputChange f e in
  session e' = assign (session e) f /\ isSaving e' = isSaving e /\
  hasUnsavedChanges e' = true /\ inflight e' = inflight e /\
  now e' = now e /\ next_timeout e' = next_timeout e.
Proof. unfold handleInputChange. by destruct (autoSaveTimer e) as [[| t] |]. Qed.

(** When the dependencies changed and there is something to save, the
    effect leaves exactly one pending timeout, due in five seconds. *)
Lemma commit_restart e :
  weak_timers e -> deps e <> effect_deps e ->
  hasUnsavedChanges e = true -> isSaving e = false ->
  timeouts (commit e) =
    [Pending (next_timeout e) (now e + delay) (render_closure (commit e))].
Proof.
  intros W D U S. unfold render_closure.
  destruct (commit_frame e) as (-> & -> & -> & _).
  unfold commit. destruct (decide _); [done |].
  assert (C : timeouts (match effect_timer e with
                        | Some t => clearTimeout t e
                        | None => e
                        end) = []).
  { destruct W as [E | (i & d & c & E & T)].
    - destruct (effect_timer e); cbn; rewrite E; done.
    - rewrite T; cbn. rewrite E; cbn. by rewrite Nat.eqb_refl. }
  destruct (effect_timer e); cbn in *; rewrite U, S; cbn; rewrite ?C;
    unfold render_closure; cbn; by rewrite ?U, ?S.
Qed.

Lemma step_edit ev e e' :
  is_edit ev = true -> step ev e = Some e' ->
  exists e1, edited ev e = Some e1 /\ e' = commit e1 /\ mounted e = true.
Proof.
  unfold step. destruct (mounted e); cbn; [| done].
  destruct ev; cbn; try done; intros _ [= <-]; eauto.
Qed.

Lemma edited_pre ev e e1 :
  inv e -> mounted e = true -> edited ev e = Some e1 ->
  mounted e1 = true /\ weak_timers e1 /\ flight_ok e1 /\
  deps e1 <> effect_deps e1 /\
  hasUnsavedChanges e1 = true /\ isSaving e1 = isSaving e /\
  now e1 = now e /\ next_timeout e1 = next_timeout e /\
  inflight e1 = inflight e.
Proof.
  intros I M. pose proof I as [F T']. destruct (T' M) as [D T].
  assert (I2 : forall v, inv (setTagInput e v)).
  { intros v. split; [exact F | intros _; split; [exact D |]].
    destruct T as [E | (i & d & E & X)];
      [by left | right; exists i, d; exact (conj E X)]. }
  destruct ev; cbn; try done; intros [= <-].
  - destruct (handleInputChange_pre (f_title value) e I M) as (? & ? & ? & ?).
    destruct (handleInputChange_frame (f_title value) e) as (? & ? & ? & ? & ? & ?).
    repeat split; done.
  - destruct (handleInputChange_pre (f_json_file_url value) e I M) as (? & ? & ? & ?).
    destruct (handleInputChange_frame (f_json_file_url value) e) as (? & ? & ? & ? & ? & ?).
    repeat split; done.
  - unfold handleTagInputChange.
    destruct (handleInputChange_pre (f_tags (parse_tags value)) _ (I2 value) M)
      as (? & ? & ? & ?).
    destruct (handleInputChange_frame (f_tags (parse_tags value)) (setTagInput e value))
      as (? & ? & ? & ? & ? & ?).
    repeat split; done.
  - destruct (removeTag_pre index e I M) as (? & ? & ? & ?).
    repeat split; done.
Qed.

(** When the dependencies changed and a save is in flight, the cleanup
    clears the timer and the effect sets none. *)
Lemma commit_cancel e :
  weak_timers e -> deps e <> effect_deps e -> isSaving e = true ->
  timeouts (commit e) = [].
Proof.
  intros W D S. unfold commit. destruct (decide _); [done |].
  assert (C : timeouts (match effect_timer e with
                        | Some t => clearTimeout t e
                        | None => e
                        end) = []).
  { destruct W as [E | (i & d & c & E & T)].
    - destruct (effect_timer e); cbn; rewrite E; done.
    - rewrite T; cbn. rewrite E; cbn. by rewrite Nat.eqb_refl. }
  destruct (effect_timer e); cbn in *; rewrite S, andb_false_r; cbn; done.
Qed.

(** A pending timeout that is due runs [autoSave] once: it sends the buffer
    unless the buffer is empty, and no timeout is pending afterwards. *)
Lemma fire_due e id d c :
  inv e -> mounted e = true -> timeouts e = [Pending id d c] -> d <= now e ->
  exists e2, step (Fire id) e = Some e2 /\
    timeouts e2 = [] /\ now e2 = now e /\ session e2 = session e /\
    lastSaved e2 = lastSaved e /\
    isSaving e2 = negb (empty_session (session e)) /\
    inflight e2 = if empty_session (session e) then []
                  else [Request from_autoSave (session e)].
Proof.
  intros [F T'] M E Le. destruct (T' M) as [D T].
  destruct T as [T | (i & d' & T & X & U & S & _)]; [congruence |].
  rewrite E in T. injection T as -> -> ->.
  assert (Fl : inflight e = []).
  { destruct F as [[_ F] | [F _]]; [done | congruence]. }
  unfold step. rewrite M; cbn. rewrite E; cbn. rewrite Nat.eqb_refl.
  cbn. destruct (d' <=? now e) eqn:Ld; [| lia].
  eexists; split; [reflexivity |].
  unfold autoSave. cbn. rewrite U, S. cbn.
  destruct (empty_session (session e)) eqn:Em.
  - destruct (commit_frame (clearTimeout i e)) as (-> & -> & _ & -> & -> & _ & -> & _).
    unfold commit. rewrite decide_True by (cbn; by rewrite D).
    cbn. rewrite E. cbn. rewrite Nat.eqb_refl. cbn. by rewrite Fl, S.
  - set (e1 := send _ _ _).
    destruct (commit_frame e1) as (-> & -> & _ & -> & -> & _ & -> & _).
    unfold commit. rewrite decide_False.
    2:{ subst e1; cbn. rewrite D. unfold deps. rewrite S. intros [=]. }
    subst e1. cbn. rewrite X. cbn. rewrite andb_false_r. cbn. rewrite E. cbn.
    rewrite Nat.eqb_refl. cbn. by rewrite Fl.
Qed.

End EditorFrames.

(** ** The debounce timer, the empty-buffer guard, publish-time validation
       and the single-flight guard *)

Section EditorClaims.
Context `{Host}.
Import Editor.

Lemma reachable_inv tr t0 e : run tr (initial t0) = Some e -> inv e.
Proof. apply run_inv, initial_inv. Qed.

(** C1, as amended.  An edit of a field in a reachable state starts no
    timer while a save is in flight.  When no save is in flight, it cancels
    the pending timeout and leaves exactly one, due five seconds after the
    edit, that closes over the edited buffer; that timeout cannot run
    earlier, time cannot pass its deadline without it running, and when it
    runs, at five seconds, [autoSave] sends the buffer at most once and no
    timeout is pending any more. *)
Theorem edit_restarts_timer tr t0 e ev e' :
  run tr (initial t0) = Some e -> is_edit ev = true -> step ev e = Some e' ->
  (isSaving e = true -> timeouts e' = []) /\
  (isSaving e = false ->
   timeouts e' =
     [Pending (next_timeout e) (now e + delay) (render_closure e')] /\
   (forall p, p ∈ timeouts e -> p ∉ timeouts e') /\
   (forall id, step (Fire id) e' = None) /\
   (forall dt e1 id,
       dt < delay -> step (Elapse dt) e' = Some e1 -> step (Fire id) e1 = None) /\
   (forall dt, delay < dt -> step (Elapse dt) e' = None) /\
   exists e1 e2,
     step (Elapse delay) e' = Some e1 /\
     step (Fire (next_timeout e)) e1 = Some e2 /\
     now e2 = now e + delay /\ timeouts e2 = [] /\
     inflight e2 = if empty_session (session e') then []
                   else [Request from_autoSave (session e')]).
Proof.
  intros R Ed St. pose proof (reachable_inv _ _ _ R) as I.
  pose proof (step_inv _ _ _ I St) as I'.
  destruct (step_edit _ _ _ Ed St) as (e1 & E1 & -> & M).
  destruct (edited_pre _ _ _ I M E1) as (M1 & W1 & F1 & D1 & U1 & S1 & N1 & X1 & L1).
  split; intros S; rewrite S in S1; [exact (commit_cancel e1 W1 D1 S1) |].
  pose proof (commit_restart e1 W1 D1 U1 S1) as T. rewrite X1, N1 in T.
  destruct (commit_frame e1) as (_ & _ & _ & _ & _ & _ & Nw & Mt).
  rewrite N1 in Nw. rewrite M1 in Mt.
  split; [exact T |]. split; [| split; [| split; [| split]]].
  - intros p Hp. rewrite T. intros Hq. apply list_elem_of_singleton in Hq.
    destruct I as [_ I]. destruct (I M) as [_ [Em | (i & d & Em & _ & _ & _ & Lt)]];
      rewrite Em in Hp.
    + by apply not_elem_of_nil in Hp.
    + apply list_elem_of_singleton in Hp. subst p. injection Hq as Hq _ _. lia.
  - intros id. unfold step. rewrite Mt, T. cbn.
    destruct (next_timeout e =? id)%nat; [| done]. cbn [p_deadline].
    rewrite Nw. unfold delay. destruct (_ <=? _) eqn:Le; [lia | done].
  - intros dt e2 id Lt. unfold step at 1. rewrite Mt, T. cbn.
    destruct (_ && _); [| done]. intros [= <-].
    unfold step. cbn. rewrite Mt, T. cbn.
    destruct (next_timeout e =? id)%nat; [| done]. cbn [p_deadline].
    rewrite Nw. destruct (_ <=? _) eqn:Le; [lia | done].
  - intros dt Lt. unfold step. rewrite Mt, T. cbn. rewrite Nw.
    destruct (0 <? dt); cbn; [| done].
    destruct (_ <=? _) eqn:Le; [lia | done].
  - assert (St1 : step (Elapse delay) (commit e1)
                  = Some (set_now (commit e1) (now (commit e1) + delay))).
    { unfold step. rewrite Mt, T. cbn. rewrite Nw.
      destruct (_ <=? _) eqn:Le; [done | lia]. }
    pose proof (step_inv _ _ _ I' St1) as I1.
    destruct (fire_due _ (next_timeout e) (now e + delay)
                (render_closure (commit e1)) I1 Mt T)
      as (e2 & F2 & T2 & N2 & S2 & _ & _ & L2).
    { cbn. rewrite Nw. lia. }
    exists (set_now (commit e1) (now (commit e1) + delay)), e2.
    split; [exact St1 |]. split; [exact F2 |].
    split; [by rewrite N2; cbn; rewrite Nw |]. split; [exact T2 | exact L2].
Qed.

(** C2.  When the buffer of a reachable state has a blank title, a blank
    data URL and no tags, [autoSave] over that buffer changes nothing, and
    the timeout that runs it leaves the requests in flight, [isSaving], the
    buffer and [lastSaved] as they were, with no save in flight. *)
Theorem autoSave_skips_empty_buffer tr t0 e id e' :
  run tr (initial t0) = Some e ->
  trim (title (session e)) = [] -> trim (json_file_url (session e)) = [] ->
  tags (session e) = [] ->
  step (Fire id) e = Some e' ->
  (forall c e0, c_session c = session e -> autoSave c e0 = e0) /\
  inflight e' = [] /\ inflight e' = inflight e /\
  isSaving e' = false /\ isSaving e' = isSaving e /\
  session e' = session e /\ lastSaved e' = lastSaved e.
Proof.
  intros R Ti Ur Tg St. pose proof (reachable_inv _ _ _ R) as I.
  assert (Em : empty_session (session e) = true).
  { unfold empty_session. by rewrite Ti, Ur, Tg. }
  split.
  { intros c e0 Ec. unfold autoSave. rewrite Ec, Em.
    by destruct (negb _ || _). }
  assert (M : mounted e = true).
  { unfold step in St. by destruct (mounted e). }
  pose proof I as [F T']. destruct (T' M) as [_ [T | (i & d & T & _ & _ & S & _)]].
  { unfold step in St. rewrite M, T in St. done. }
  assert (id = i) as ->.
  { unfold step in St. rewrite M, T in St. cbn in St.
    destruct (i =? id)%nat eqn:Ei; [| done]. by apply Nat.eqb_eq in Ei. }
  assert (Le : d <= now e).
  { unfold step in St. rewrite M, T in St. cbn in St.
    rewrite Nat.eqb_refl in St. cbn in St.
    destruct (d <=? now e) eqn:Le; [lia | done]. }
  destruct (fire_due e i d _ I M T Le) as (e2 & F2 & _ & _ & S2 & L2 & Sv & Fl).
  rewrite F2 in St. injection St as <-. rewrite Em in Sv, Fl. cbn in Sv.
  assert (inflight e = []) as ->.
  { destruct F as [[_ F] | [F _]]; [done | congruence]. }
  rewrite S. done.
Qed.

(** C3.  [handlePublish] on a buffer whose title is blank, or whose data URL
    is blank or starts with neither [http://] nor [https://], only shows an
    error toast: nothing is sent and [isSaving] is not set, also when the
    handler is reached through the button.  The message is the title's one
    when the title is blank and one of the two about the URL otherwise, and
    these differ. *)
Theorem handlePublish_rejects_locally (s : buffer) (e : editor) :
  trim (title s) = [] \/ trim (json_file_url s) = [] \/
  startsWith (json_file_url s) (lit "http://")
  || startsWith (json_file_url s) (lit "https://") = false ->
  exists m,
    handlePublish s e = add_toast e (toast_error m) /\
    inflight (handlePublish s e) = inflight e /\
    isSaving (handlePublish s e) = isSaving e /\
    (trim (title s) = [] -> m = msg_title_required) /\
    (trim (title s) <> [] -> m = msg_url_required \/ m = msg_url_invalid) /\
    msg_title_required <> msg_url_required /\
    msg_title_required <> msg_url_invalid /\
    (s = session e ->
     forall e', step ClickPublish e = Some e' -> inflight e' = inflight e).
Proof.
  intros Hf.
  assert (K : forall m, handlePublish s e = add_toast e (toast_error m) ->
              inflight (handlePublish s e) = inflight e /\
              isSaving (handlePublish s e) = isSaving e /\
              (s = session e -> forall e',
                 step ClickPublish e = Some e' -> inflight e' = inflight e)).
  { intros m Hm. rewrite Hm. split; [done | split; [done |]]. intros -> e'.
    unfold step. destruct (mounted e); cbn; [| done].
    destruct (publish_disabled e); intros [= <-]; [done |].
    by rewrite commit_inflight, Hm. }
  unfold handlePublish in *.
  destruct (trim (title s)) as [| c r] eqn:Ti; cbn [truthy negb].
  - exists msg_title_required. destruct (K _ eq_refl) as (? & ? & ?).
    repeat split; try done.
  - destruct (trim (json_file_url s)) as [| c' r'] eqn:Ur; cbn [truthy negb].
    + exists msg_url_required. destruct (K _ eq_refl) as (? & ? & ?).
      repeat split; try done. by left.
    + destruct Hf as [Hf | [Hf | Hf]]; try done.
      unfold validateUrl in *. rewrite Hf in *.
      destruct (URL_parses (json_file_url s)); cbn [negb] in *;
        exists msg_url_invalid; destruct (K _ eq_refl) as (? & ? & ?);
        repeat split; try done; by right.
Qed.

(** C4.  In every reachable state of a mounted editor at most one request
    is in flight.  While [isSaving] is set no timeout is pending, [autoSave]
    called from a closure that saw [isSaving] does nothing, and a click on
    Save Draft or on Publish does nothing; when it is not set, the first of two clicks on
    Save Draft sends the buffer and the second does nothing, so that exactly
    one request is in flight. *)
Theorem single_flight tr t0 e :
  run tr (initial t0) = Some e -> mounted e = true ->
  (length (inflight e) <= 1)%nat /\
  (isSaving e = true ->
     timeouts e = [] /\
     (forall id, step (Fire id) e = None) /\
     (forall c, c_isSaving c = true -> autoSave c e = e) /\
     step ClickSaveDraft e = Some e /\ step ClickPublish e = Some e) /\
  (isSaving e = false ->
     exists e1,
       step ClickSaveDraft e = Some e1 /\ step ClickSaveDraft e1 = Some e1 /\
       isSaving e1 = true /\
       inflight e1 = [Request from_handleSaveDraft (session e)]).
Proof.
  intros R M. pose proof (reachable_inv _ _ _ R) as I.
  pose proof I as [F T']. destruct (T' M) as [D T].
  split; [| split].
  - destruct F as [[_ ->] | [_ [r ->]]]; cbn; lia.
  - intros S.
    assert (Tm : timeouts e = []).
    { destruct T as [T | (i & d & _ & _ & _ & S' & _)]; [done | congruence]. }
    split; [exact Tm |]. split; [| split].
    + intros id. unfold step. by rewrite M, Tm.
    + intros c Sc. unfold autoSave. rewrite Sc. by rewrite orb_true_r.
    + split; unfold step, save_disabled, publish_disabled; by rewrite M, S.
  - intros S.
    assert (Fl : inflight e = []).
    { destruct F as [[_ F] | [F _]]; [done | congruence]. }
    eexists. split; [unfold step, save_disabled; rewrite M, S; reflexivity |].
    destruct (commit_frame (handleSaveDraft (session e) e))
      as (_ & Sv & _ & Fe & _ & _ & _ & Mt).
    cbn in Sv, Fe, Mt. rewrite Fl in Fe.
    split; [| split].
    + unfold step, save_disabled. by rewrite Mt, Sv, M.
    + exact Sv.
    + exact Fe.
Qed.

(** C9.  The initial buffer carries the default data URL and the status
    [draft], so it is not empty; and in the editor of a new session, which
    loads nothing, no reachable buffer is empty as long as no edit leaves
    the data URL blank. *)
Theorem new_buffer_never_empty tr t0 e :
  run tr (initial t0) = Some e ->
  forallb (fun ev => negb (clears_url ev || is_load ev)) tr = true ->
  json_file_url initial_session = lit "https://example.com/data/users.json" /\
  status initial_session = draft /\
  empty_session (session (initial t0)) = false /\
  empty_session (session e) = false.
Proof.
  intros R Ok. split; [done | split; [done | split; [done |]]].
  assert (G : forall tr e0 e1,
             truthy (trim (json_file_url (session e0))) = true ->
             forallb (fun ev => negb (clears_url ev || is_load ev)) tr = true ->
             run tr e0 = Some e1 ->
             truthy (trim (json_file_url (session e1))) = true).
  { clear. induction tr as [| ev tr IH]; intros e0 e1 U Ok; cbn.
    - by intros [= <-].
    - cbn in Ok. apply andb_true_iff in Ok as [Ok1 Ok2].
      destruct (step ev e0) as [e2 |] eqn:St; [| done].
      apply IH; [| exact Ok2]. clear IH Ok2.
      unfold step in St. destruct (mounted e0); cbn in St; [| done].
      destruct ev; cbn in Ok1.
      + destruct (_ && _); [| done]. by injection St as <-.
      + destruct (List.find _ _) as [p |]; [| done].
        destruct (_ <=? _); [| done]. injection St as <-.
        rewrite commit_session. unfold autoSave.
        destruct (negb _ || _); [done |]. by destruct (empty_session _).
      + injection St as <-. rewrite commit_session.
        destruct (handleInputChange_frame (f_title value) e0) as (-> & _). done.
      + injection St as <-. rewrite commit_session.
        destruct (handleInputChange_frame (f_json_file_url value) e0) as (-> & _).
        cbn. rewrite orb_false_r in Ok1.
        by apply negb_true_iff, negb_false_iff in Ok1.
      + injection St as <-. rewrite commit_session. unfold handleTagInputChange.
        destruct (handleInputChange_frame (f_tags (parse_tags value))
                    (setTagInput e0 value)) as (-> & _). done.
      + injection St as <-. by rewrite commit_session.
      + destruct (save_disabled e0); injection St as <-; [done |].
        by rewrite commit_session.
      + destruct (publish_disabled e0); injection St as <-; [done |].
        rewrite commit_session. unfold handlePublish.
        repeat (destruct (negb _); [done |]). done.
      + destruct (inflight e0 !! n) as [r |]; [| done]. injection St as <-.
        destruct (r_origin r); rewrite ?commit_session; unfold draft_saved, publish_done, unmount;
          cbn; destruct (_id (r_session r)), resp, (effect_timer e0); done.
      + destruct (inflight e0 !! n) as [r |]; [| done]. injection St as <-.
        rewrite commit_session. by destruct (r_origin r).
      + done.
      + done. }
  specialize (G tr (initial t0) e eq_refl Ok R).
  unfold empty_session. rewrite G. cbn. by rewrite andb_false_r.
Qed.

End EditorClaims.

(** *** The editor on concrete runs

    The runs below are evaluated with [ascii_host], which agrees with a
    JavaScript host on the strings that occur in them. *)

Section EditorRuns.
Import Editor.

(** C1 as stated fails.  The title is edited at 0 ms, the timeout runs at
    5000 ms and sends the buffer, and the title is edited again at 5100 ms
    while that save is in flight: this edit starts no timer.  The save is
    answered at 5300 ms; five seconds after the last edit, at 10100 ms,
    still no timeout is pending and nothing is in flight, although the
    buffer holds the second title. *)
Lemma edit_while_saving_starts_no_timer :
  exists e e' e'',
    run [ChangeTitle (lit "a"); Elapse 5000; Fire 1; Elapse 100] (initial 0)
      = Some e /\
    isSaving e = true /\
    step (ChangeTitle (lit "ab")) e = Some e' /\
    timeouts e' = [] /\
    run [Elapse 200; Resolved 0 (Some 7%N); Elapse 4800] e' = Some e'' /\
    now e'' = 10100 /\ title (session e'') = lit "ab" /\
    timeouts e'' = [] /\ inflight e'' = [].
Proof.
  do 3 eexists. do 8 (split; [vm_compute; reflexivity |]).
  vm_compute; reflexivity.
Qed.

Lemma edit_restarts_timer_witness :
  run [] (initial 0) = Some (initial 0) /\
  is_edit (ChangeTitle (lit "a")) = true /\
  isSaving (initial 0) = false /\
  exists e',
    step (ChangeTitle (lit "a")) (initial 0) = Some e' /\
    timeouts e' = [Pending 1 5000 (render_closure e')].
Proof.
  split; [reflexivity |]. split; [reflexivity |]. split; [reflexivity |].
  eexists. split; [vm_compute; reflexivity |].
  refine (proj1 (proj2 (edit_restarts_timer [] 0 (initial 0)
                          (ChangeTitle (lit "a")) _ _ _ _) _));
    vm_compute; reflexivity.
Defined.

Lemma autoSave_skips_empty_buffer_witness :
  exists e e',
    run [ChangeUrl []; Elapse 5000] (initial 0) = Some e /\
    trim (title (session e)) = [] /\ trim (json_file_url (session e)) = [] /\
    tags (session e) = [] /\
    step (Fire 1) e = Some e' /\
    inflight e' = [] /\ isSaving e' = false.
Proof.
  let r := eval vm_compute in (run [ChangeUrl []; Elapse 5000] (initial 0)) in
  match r with
  | Some ?e =>
      let r' := eval vm_compute in (step (Fire 1) e) in
      match r' with
      | Some ?e' =>
          exists e, e';
          pose proof (autoSave_skips_empty_buffer
                        [ChangeUrl []; Elapse 5000] 0 e 1%nat e') as W
      end
  end.
  do 5 (split; [vm_compute; reflexivity |]).
  destruct W as (_ & W1 & _ & W2 & _); [vm_compute; reflexivity .. |].
  exact (conj W1 W2).
Defined.

Lemma handlePublish_rejects_locally_witness :
  trim (title initial_session) = [] /\
  exists m,
    handlePublish initial_session (initial 0)
      = add_toast (initial 0) (toast_error m) /\
    inflight (handlePublish initial_session (initial 0)) = [].
Proof.
  split; [reflexivity |].
  destruct (handlePublish_rejects_locally initial_session (initial 0)
              (or_introl eq_refl)) as (m & E & F & _).
  exists m. split; [exact E | exact F].
Defined.

Lemma single_flight_witness :
  exists e,
    run [ChangeTitle (lit "a"); ClickSaveDraft; ClickSaveDraft] (initial 0)
      = Some e /\
    mounted e = true /\ (length (inflight e) <= 1)%nat.
Proof.
  eexists. do 2 (split; [vm_compute; reflexivity |]).
  refine (proj1 (single_flight
                   [ChangeTitle (lit "a"); ClickSaveDraft; ClickSaveDraft] 0 _
                   _ _)); vm_compute; reflexivity.
Defined.

Lemma new_buffer_never_empty_witness :
  exists e,
    run [ChangeTitle (lit " "); ChangeTagInput (lit " , "); Elapse 5000; Fire 2]
      (initial 0) = Some e /\
    empty_session (session e) = false.
Proof.
  eexists. split; [vm_compute; reflexivity |].
  refine (proj2 (proj2 (proj2
            (new_buffer_never_empty
               [ChangeTitle (lit " "); ChangeTagInput (lit " , "); Elapse 5000; Fire 2]
               0 _ _ _)))); vm_compute; reflexivity.
Defined.

End EditorRuns.

(** ** The routes that write *)

Section RoutesLemmas.
Context `{Host}.
Import Routes.

Lemma truthy_nonempty (s : jsstring) : truthy s = true <-> s <> [].
Proof. by destruct s. Qed.

Lemma validate_nil d :
  validate d = [] <->
  validate_title (data_title d) = None /\
  Forall (fun g => validate_tag g = None) (data_tags d) /\
  validate_json_file_url (data_json_file_url d) = None.
Proof.
  unfold validate. cbn.
  assert (G : forall l, omap validate_tag l = [] <->
                        Forall (fun g => validate_tag g = None) l).
  { induction l as [| g l IH]; cbn; [by split |].
    destruct (validate_tag g) eqn:E; split; try done.
    - intros Hf. inversion Hf; congruence.
    - intros Hl. constructor; [done | by apply IH].
    - intros Hf. inversion Hf; subst. by apply IH. }
  destruct (validate_title _), (validate_json_file_url _); cbn;
    split; try done; try (intros (? & ? & ?); done).
  - intros E. split; [done |]. split; [by apply G | done].
  - intros (_ & E & _). by apply G.
Qed.

Lemma validate_title_None v :
  validate_title v = None <-> v <> [] /\ (length v <= 200)%nat.
Proof.
  unfold validate_title. destruct v as [| c r]; cbn [truthy negb]; [by split; [| intros []] |].
  destruct (200 <? length (c :: r))%nat eqn:E; split; try done.
  - intros [_ L]. apply Nat.ltb_lt in E. lia.
  - intros _. split; [done |]. apply Nat.ltb_ge in E. lia.
Qed.

Lemma validate_tag_None v : validate_tag v = None <-> (length v <= 50)%nat.
Proof.
  unfold validate_tag. destruct (50 <? length v)%nat eqn:E; split; try done.
  - intros L. apply Nat.ltb_lt in E. lia.
  - intros _. apply Nat.ltb_ge in E. lia.
Qed.

Lemma validate_json_file_url_None v :
  validate_json_file_url v = None <-> v <> [] /\ test_url v = true.
Proof.
  unfold validate_json_file_url.
  destruct v as [| c r]; cbn [truthy negb]; [by split; [| intros []] |].
  destruct (test_url (c :: r)); cbn; split; try done. by intros [_ ?].
Qed.

(** What [upsert] answers and writes: either it saved a valid document
    [s], stored under the identifier asked for or a new one, or it answers
    400 or 404 and leaves the collection as it was. *)
Lemma upsert_cases message t id user d db :
  data_user_id d = user ->
  (exists s k,
      upsert message t id user d db = (json_saved message s, <[k := s]> db) /\
      validate (cast d) = [] /\
      user_id s = user /\ title s = data_title (cast d) /\
      tags s = data_tags (cast d) /\
      json_file_url s = data_json_file_url (cast d) /\
      status s = data_status d /\
      match id with
      | Some i => k = i /\ exists old, db !! i = Some old /\ _id s = _id old
      | None => k = _id s /\ db !! k = None
      end) \/
  (exists code error,
      upsert message t id user d db = (json_error code error, db) /\
      (code = 400%nat /\ validate (cast d) <> [] \/
       code = 404%nat /\ validate (cast d) = [] /\ id <> None)).
Proof.
  intros Hu. unfold upsert, findOneAndUpdate, create.
  destruct (validate (cast d)) as [| m ms] eqn:V.
  - destruct id as [i |].
    + destruct (db !! i) as [old |] eqn:L.
      * destruct (decide (user_id old = user)) as [E | N].
        -- left. eexists _, i. split; [reflexivity |]. cbn.
           repeat split; try done. eauto.
        -- right. exists 404%nat, "Session not found". split; [done |]. right. done.
      * right. exists 404%nat, "Session not found". split; [done |]. right. done.
    + left. eexists _, _. split; [reflexivity |]. cbn.
      repeat split; try done.
      apply not_elem_of_dom. apply is_fresh.
  - right. destruct id; eexists 400%nat, _; (split; [reflexivity |]); left; done.
Qed.

Lemma complete_of_valid s d :
  validate d = [] -> title s = data_title d ->
  json_file_url s = data_json_file_url d -> complete s.
Proof.
  unfold complete. intros V -> ->. apply validate_nil in V as (T & _ & U).
  apply validate_title_None in T as [T _].
  apply validate_json_file_url_None in U as [U1 U2]. done.
Qed.

Lemma upsert_complete message t id user d db :
  data_user_id d = user ->
  published_complete db ->
  published_complete (snd (upsert message t id user d db)).
Proof.
  intros Hu P.
  destruct (upsert_cases message t id user d db Hu)
    as [(s & k & -> & V & _ & Ti & _ & Ur & _) | (c & m & -> & _)]; [| exact P].
  cbn. intros i s' L St. destruct (decide (k = i)) as [-> | Ne].
  - rewrite lookup_insert_eq in L. injection L as <-.
    eapply complete_of_valid; eauto.
  - rewrite lookup_insert_ne in L by done. eauto.
Qed.

Lemma handle_complete w db :
  published_complete db -> published_complete (snd (handle w db)).
Proof.
  intros P. destruct w as [user t b | user t b | user id]; cbn.
  - by apply upsert_complete.
  - unfold publish. destruct (blank (req_title b)); [exact P |].
    destruct (blank (req_json_file_url b)); [exact P |].
    by apply upsert_complete.
  - unfold delete_one. destruct (db !! id) as [s |]; [| exact P].
    destruct (decide _); [| exact P]. cbn.
    intros i s' L. apply lookup_delete_Some in L as [_ L]. eauto.
Qed.

Lemma serve_complete ws : forall db,
  published_complete db -> published_complete (serve ws db).
Proof.
  unfold serve. induction ws as [| w ws IH]; intros db P; cbn; [exact P |].
  apply IH, handle_complete, P.
Qed.

Lemma upsert_keyed message t id user d db :
  data_user_id d = user -> keyed db ->
  keyed (snd (upsert message t id user d db)).
Proof.
  intros Hu K.
  destruct (upsert_cases message t id user d db Hu)
    as [(s & k & -> & _ & _ & _ & _ & _ & _ & Hk) | (c & m & -> & _)]; [| exact K].
  cbn. intros i s' L. destruct (decide (k = i)) as [-> | Ne].
  - rewrite lookup_insert_eq in L. injection L as <-.
    destruct id as [j |].
    + destruct Hk as (-> & old & Lo & ->). eauto.
    + by destruct Hk as [-> _].
  - rewrite lookup_insert_ne in L by done. eauto.
Qed.

Lemma handle_keyed w db : keyed db -> keyed (snd (handle w db)).
Proof.
  intros K. destruct w as [user t b | user t b | user id]; cbn.
  - by apply upsert_keyed.
  - unfold publish. destruct (blank (req_title b)); [exact K |].
    destruct (blank (req_json_file_url b)); [exact K |].
    by apply upsert_keyed.
  - unfold delete_one. destruct (db !! id) as [s |]; [| exact K].
    destruct (decide _); [| exact K]. cbn.
    intros i s' L. apply lookup_delete_Some in L as [_ L]. eauto.
Qed.

Lemma serve_keyed ws : forall db, keyed db -> keyed (serve ws db).
Proof.
  unfold serve. induction ws as [| w ws IH]; intros db K; cbn; [exact K |].
  apply IH, handle_keyed, K.
Qed.

End RoutesLemmas.

Section RoutesClaims.
Context `{Host}.
Import Routes.

(** C5.  After any sequence of writes to an empty collection every
    published document has a title and a data URL that matches
    [^https?://.+], and each write keeps it so; [POST /my-sessions/publish]
    answers 400 and writes nothing when the title or the URL is missing or
    blank, and also when the trimmed URL does not match the pattern. *)
Theorem published_records_complete :
  (forall ws, published_complete (serve ws ∅)) /\
  (forall w db, published_complete db -> published_complete (snd (handle w db))) /\
  (forall user t b db,
      blank (req_title b) = true \/ blank (req_json_file_url b) = true ->
      exists error, publish user t b db = (json_error 400 error, db)) /\
  (forall user t b db u,
      req_json_file_url b = Some u -> test_url (trim u) = false ->
      exists error, publish user t b db = (json_error 400 error, db)).
Proof.
  split; [| split; [| split]].
  - intros ws. apply serve_complete. intros i s L. by rewrite lookup_empty in L.
  - intros w db. apply handle_complete.
  - intros user t b db Hb. unfold publish.
    destruct (blank (req_title b)); [eauto |].
    destruct Hb as [Hb | Hb]; [done |]. rewrite Hb. eauto.
  - intros user t b db u Hu Ht. unfold publish.
    destruct (blank (req_title b)); [eauto |].
    destruct (blank (req_json_file_url b)) eqn:Bl; [eauto |].
    rewrite Hu in *. cbn [default].
    match goal with
    | |- context [upsert ?m ?t ?i ?us ?d ?db] =>
        destruct (upsert_cases m t i us d db eq_refl)
          as [(s & k & _ & V & _) | (c & e & -> & [[-> _] | (_ & V & _)])]
    end.
    + exfalso. apply validate_nil in V as (_ & _ & V).
      apply validate_json_file_url_None in V as [_ V].
      cbn [cast data_json_file_url] in V. unfold set_json_file_url, id in V.
      rewrite trim_trim in V. congruence.
    + eauto.
    + exfalso. apply validate_nil in V as (_ & _ & V).
      apply validate_json_file_url_None in V as [_ V].
      cbn [cast data_json_file_url] in V. unfold set_json_file_url, id in V.
      rewrite trim_trim in V. congruence.
Qed.

(** C8, as amended.  When [POST /my-sessions/save-draft] answers with a
    saved document, [GET /my-sessions/:id] with its identifier answers with
    the same document; it is a draft whose title is the trimmed title of
    the request ([Untitled Session] if that was missing or empty), whose
    tags are those of the request that are not blank, trimmed and
    lower-cased, and whose data URL is the trimmed URL of the request.  So
    it has the title, tags and URL of the request when the title is not
    empty and has no white space around it, the tags are not blank, trimmed
    and in lower case, and the URL has no white space around it. *)
Theorem save_draft_then_get_one user t b db message s db' :
  keyed db ->
  save_draft user t b db = (json_saved message s, db') ->
  get_one user (_id s) db' = json_session s /\
  status s = draft /\
  title s = trim (or_default (req_title b) (lit "Untitled Session")) /\
  tags s = List.map set_tag (kept_tags (req_tags b)) /\
  json_file_url s = trim (or_default (req_json_file_url b) []) /\
  (forall ti, req_title b = Some ti -> ti <> [] -> trim ti = ti -> title s = ti) /\
  (forall tg, req_tags b = Some tg ->
              Forall (fun g => trim g <> [] /\ trim (toLowerCase g) = g) tg ->
              tags s = tg) /\
  (forall u, req_json_file_url b = Some u -> trim u = u -> json_file_url s = u).
Proof.
  intros K. unfold save_draft.
  match goal with
  | |- context [upsert ?m ?t ?i ?us ?d ?db] =>
      destruct (upsert_cases m t i us d db eq_refl)
        as [(s0 & k & -> & V & Us & Ti & Tg & Ur & St & Hk) | (c & e & -> & _)]
  end; [| done].
  intros [= _ <- <-]. cbn in Ti, Tg, Ur, St.
  assert (Ek : k = _id s0).
  { destruct (req_id b) as [i |].
    - destruct Hk as (-> & old & Lo & ->). symmetry. eauto.
    - by destruct Hk. }
  split; [| split; [done | split; [done | split; [done | split; [done |]]]]].
  - unfold get_one. rewrite <- Ek, lookup_insert_eq.
    by rewrite decide_True.
  - split; [| split].
    + intros ti E N Tr. rewrite Ti, E. unfold set_title. cbn.
      destruct ti; [done |]. exact Tr.
    + intros tg E F. rewrite Tg, E. cbn. clear -F.
      induction F as [| g tg [N L] _ IH]; cbn; [done |].
      destruct (trim g); [done |]. cbn. unfold set_tag at 1. by rewrite L, IH.
    + intros u E Tr. rewrite Ur, E. unfold set_json_file_url. cbn.
      destruct u; [done |]. exact Tr.
Qed.

(** The fields of the pagination object, for a limit of at least one:
    [Math.ceil(total / limit)] is the least number of pages of [limit]
    that hold [total] sessions. *)
Lemma paginate_fields page limit total :
  1 <= limit ->
  let p := paginate page limit total in
  currentPage p = page /\
  totalSessions p = total /\
  totalPages p = Qceiling (inject_Z total / inject_Z limit) /\
  (totalPages p - 1) * limit < total <= totalPages p * limit /\
  (hasNextPage p = true <-> page * limit < total) /\
  (hasNextPage p = true <-> currentPage p < totalPages p).
Proof.
  intros Hl. cbn.
  set (x := (inject_Z total / inject_Z limit)%Q).
  assert (Lq : (0 < inject_Z limit)%Q).
  { unfold Qlt. cbn. lia. }
  assert (E : forall n, (n * limit < total) <-> (inject_Z n < x)%Q).
  { intros n. unfold x. split; intros L.
    - apply Qlt_shift_div_l; [exact Lq |].
      rewrite <- inject_Z_mult. by rewrite <- Zlt_Qlt.
    - apply (Qmult_lt_r _ _ _ Lq) in L.
      unfold Qdiv in L. rewrite <- Qmult_assoc, (Qmult_comm (/ _)) in L.
      rewrite Qmult_inv_r, Qmult_1_r in L.
      + rewrite <- inject_Z_mult in L. by rewrite Zlt_Qlt.
      + intros Z0. rewrite Z0 in Lq. by apply Qlt_irrefl in Lq. }
  assert (Lo : (Qceiling x - 1) * limit < total).
  { apply E, Qceiling_lt. }
  assert (Up : total <= Qceiling x * limit).
  { apply Z.le_ngt. intros L. apply E in L.
    apply (Qlt_irrefl x). eapply Qle_lt_trans; [apply Qle_ceiling | exact L]. }
  split; [done |]. split; [done |]. split; [done |]. split; [lia |].
  rewrite Z.ltb_lt. split; [done |]. split; intros L; nia.
Qed.

(** C10.  The pagination object of [GET /sessions] and of
    [GET /my-sessions], for a page and a limit of at least one, with
    [total] the number of documents that match the query: [currentPage] is
    the page asked for, [totalSessions] is [total], [totalPages] is
    [ceil(total / limit)], the least number of pages of [limit] sessions
    that hold them all, [hasNextPage] is [page * limit < total], and
    [hasNextPage] holds exactly when [currentPage] is below [totalPages]. *)
Theorem pagination_consistent text_matches users user
    (q : Listing.sessions_query) (mq : Listing.my_query) db :
  1 <= Listing.page q -> 1 <= Listing.limit q ->
  1 <= Listing.my_page mq -> 1 <= Listing.my_limit mq ->
  let p := Listing.pagination (Listing.get_sessions text_matches users q db) in
  let total :=
    Z.of_nat (length (List.filter (Listing.matches_published text_matches q)
                        (map_to_list db).*2)) in
  let p' := snd (Listing.get_my_sessions user mq db) in
  let total' :=
    Z.of_nat (length (List.filter (Listing.matches_own user mq)
                        (map_to_list db).*2)) in
  (currentPage p = Listing.page q /\
   totalSessions p = total /\
   totalPages p = Qceiling (inject_Z total / inject_Z (Listing.limit q)) /\
   (totalPages p - 1) * Listing.limit q < total
     <= totalPages p * Listing.limit q /\
   (hasNextPage p = true <-> Listing.page q * Listing.limit q < total) /\
   (hasNextPage p = true <-> currentPage p < totalPages p)) /\
  (currentPage p' = Listing.my_page mq /\
   totalSessions p' = total' /\
   totalPages p' = Qceiling (inject_Z total' / inject_Z (Listing.my_limit mq)) /\
   (totalPages p' - 1) * Listing.my_limit mq < total'
     <= totalPages p' * Listing.my_limit mq /\
   (hasNextPage p' = true
    <-> Listing.my_page mq * Listing.my_limit mq < total') /\
   (hasNextPage p' = true <-> currentPage p' < totalPages p')).
Proof.
  intros _ L1 _ L2. cbn zeta.
  unfold Listing.get_sessions, Listing.get_my_sessions, Listing.find_sorted.
  cbn [Listing.pagination snd].
  rewrite !(Permutation_length (merge_sort_Permutation _ _)).
  split; by apply paginate_fields.
Qed.

End RoutesClaims.

(** ** Saving a draft, from the button to the collection *)

Section DraftClaims.
Context `{Host}.
Import Routes.

(** C6, as amended.  A click on Save Draft, enabled whenever no save is in
    flight, sends the buffer at once, whatever the buffer holds and whether
    or not a timeout is pending, and leaves no timeout pending.  The route
    either saves a document, which then has the status [draft] and belongs
    to the user, or answers with an error and leaves the collection as it
    was.  For a request without identifier it saves exactly when the
    trimmed title ([Untitled Session] if missing or empty) is not empty and
    has at most 200 code units, each tag kept has at most 50 once trimmed
    and lower-cased, and the trimmed data URL matches [^https?://.+]. *)
Theorem save_draft_immediate_and_draft :
  (forall tr t0 e,
      Editor.run tr (Editor.initial t0) = Some e ->
      Editor.mounted e = true -> Editor.isSaving e = false ->
      exists e',
        Editor.step Editor.ClickSaveDraft e = Some e' /\
        Editor.inflight e'
          = [Editor.Request Editor.from_handleSaveDraft (Editor.session e)] /\
        Editor.isSaving e' = true /\ Editor.timeouts e' = [] /\
        Editor.now e' = Editor.now e) /\
  (forall user t b db,
      (exists s k,
          save_draft user t b db
            = (json_saved "Draft saved successfully" s, <[k := s]> db) /\
          status s = draft /\ user_id s = user) \/
      (exists code error,
          save_draft user t b db = (json_error code error, db))) /\
  (forall user t b db,
      req_id b = None ->
      (exists s db',
          save_draft user t b db
            = (json_saved "Draft saved successfully" s, db')) <->
      (trim (or_default (req_title b) (lit "Untitled Session")) <> [] /\
       (length (trim (or_default (req_title b) (lit "Untitled Session")))
        <= 200)%nat /\
       Forall (fun g => (length (set_tag g) <= 50)%nat) (kept_tags (req_tags b)) /\
       test_url (trim (or_default (req_json_file_url b) [])) = true)).
Proof.
  split; [| split].
  - intros tr t0 e R M S. pose proof (reachable_inv _ _ _ R) as I.
    destruct (send_pre Editor.from_handleSaveDraft (Editor.session e) e I M S)
      as (M1 & W1 & F1 & D1).
    eexists. split.
    { unfold Editor.step, Editor.save_disabled. rewrite M, S. reflexivity. }
    unfold Editor.handleSaveDraft.
    destruct (commit_frame
                (Editor.send Editor.from_handleSaveDraft (Editor.session e)
                   (Editor.setIsSaving e true)))
      as (_ & -> & _ & -> & _ & _ & -> & _).
    rewrite (commit_cancel _ W1 D1 eq_refl). cbn.
    destruct I as [[[_ ->] | [S' _]] _]; [done | congruence].
  - intros user t b db. unfold save_draft.
    match goal with
    | |- context [upsert ?m ?t ?i ?us ?d ?db] =>
        destruct (upsert_cases m t i us d db eq_refl)
          as [(s & k & -> & _ & Us & _ & _ & _ & St & _) | (c & e & -> & _)]
    end; [left | right]; eauto.
  - intros user t b db Hid. unfold save_draft. rewrite Hid.
    match goal with
    | |- context [upsert ?m ?t ?i ?us ?d ?db] =>
        destruct (upsert_cases m t i us d db eq_refl)
          as [(s & k & -> & V & _) | (c & e & -> & [[_ V] | (_ & _ & N)])]
    end; [| | done].
    + split; [intros _ | eauto].
      apply validate_nil in V as (T & G & U).
      cbn [cast data_title data_tags data_json_file_url] in T, G, U.
      unfold set_title, set_json_file_url in *.
      apply validate_title_None in T as [T1 T2].
      apply validate_json_file_url_None in U as [_ U].
      repeat split; try done.
      apply Forall_map in G. eapply Forall_impl; [exact G |].
      intros g. cbn. apply validate_tag_None.
    + split; [by intros (s & db' & [=]) |].
      intros (T1 & T2 & G & U). exfalso. apply V. apply validate_nil.
      cbn [cast data_title data_tags data_json_file_url].
      unfold set_title, set_json_file_url.
      split; [by apply validate_title_None |]. split.
      * apply Forall_map. eapply Forall_impl; [exact G |].
        intros g. cbn. apply validate_tag_None.
      * apply validate_json_file_url_None. split; [| exact U].
        intros E. rewrite E in U. done.
Qed.

(** C7 fails on a token that [jwt.verify] rejects as a [JsonWebTokenError]
    (malformed, wrong signature): the middleware answers 403, and on 403 the
    response interceptor leaves the stored token and user and the location
    as they are. *)
Theorem invalid_token_answers_403 verify users authHeader token :
  Auth.token_of authHeader = Some token -> token <> [] ->
  verify token = Auth.throws "JsonWebTokenError" ->
  Auth.authenticateToken verify users authHeader
    = Auth.respond 403 "Invalid token." /\
  forall b, Api.on_error (Some 403%nat) b = b.
Proof.
  intros Ht Hn Hv. split; [| done].
  unfold Auth.authenticateToken. rewrite Ht. destruct token; [done |].
  cbn. by rewrite Hv.
Qed.

(** The other refusals of the middleware are 401, on which the interceptor
    removes the stored token and user and goes to the login page. *)
Lemma missing_or_expired_token_answers_401 verify users authHeader :
  (Auth.token_of authHeader = None \/ Auth.token_of authHeader = Some [] \/
   exists token, Auth.token_of authHeader = Some token /\ token <> [] /\
     (verify token = Auth.throws "TokenExpiredError" \/
      exists u, verify token = Auth.decoded u /\ u ∉ users)) ->
  (exists error,
      Auth.authenticateToken verify users authHeader = Auth.respond 401 error) /\
  forall b,
    Api.localStorage (Api.on_error (Some 401%nat) b) !! "wellness_token" = None /\
    Api.localStorage (Api.on_error (Some 401%nat) b) !! "wellness_user" = None /\
    Api.href (Api.on_error (Some 401%nat) b) = "/login".
Proof.
  intros Hc. split.
  - unfold Auth.authenticateToken.
    destruct Hc as [-> | [-> | (token & -> & Hn & Hv)]]; [eauto | eauto |].
    destruct token; [done |]. cbn.
    destruct Hv as [-> | (u & -> & Hu)]; [cbn; eauto |].
    rewrite decide_False by done. eauto.
  - intros b. cbn. split; [| split; [| done]].
    + rewrite lookup_delete_ne by done. apply lookup_delete_eq.
    + apply lookup_delete_eq.
Qed.

End DraftClaims.

(** *** The routes and the middleware on concrete requests

    They are evaluated with [ascii_host], which agrees with a JavaScript
    host on the strings that occur in them. *)

Section RouteRuns.
Import Routes.

Lemma keyed_empty : keyed ∅.
Proof. intros i s L. by rewrite lookup_empty in L. Qed.

(** C6 as stated fails.  Saving the buffer with an empty title, no tags and
    an empty data URL as a draft is answered with 400, and nothing is
    stored. *)
Lemma empty_draft_is_rejected :
  Editor.empty_session
    (Editor.assign Editor.initial_session (Editor.f_json_file_url [])) = true /\
  save_draft 1%N 10 empty_body ∅
    = (json_error 400 "JSON file URL is required", ∅).
Proof. split; vm_compute; reflexivity. Qed.

(** C8 as stated fails.  The buffer of a new session, with its empty title,
    is saved as a draft; loading the saved document by its identifier
    returns the title [Untitled Session], not the empty title that was
    saved. *)
Lemma untitled_draft_does_not_round_trip :
  exists s db',
    save_draft 1%N 10 (Api.post_body Editor.initial_session) ∅
      = (json_saved "Draft saved successfully" s, db') /\
    get_one 1%N (_id s) db' = json_session s /\
    title s = lit "Untitled Session" /\
    title s <> Editor.title Editor.initial_session.
Proof.
  do 2 eexists. split; [vm_compute; reflexivity |].
  split; [vm_compute; reflexivity |]. split; [vm_compute; reflexivity |].
  vm_compute. discriminate.
Qed.

Lemma published_records_complete_witness :
  blank (req_title (Api.post_body Editor.initial_session)) = true /\
  exists error,
    publish 1%N 10 (Api.post_body Editor.initial_session) ∅
      = (json_error 400 error, ∅).
Proof.
  split; [vm_compute; reflexivity |].
  refine (proj1 (proj2 (proj2 published_records_complete)) 1%N 10 _ ∅ _).
  left. vm_compute; reflexivity.
Defined.

Lemma save_draft_immediate_and_draft_witness :
  (exists e e',
      Editor.run [Editor.ChangeUrl []] (Editor.initial 0) = Some e /\
      Editor.empty_session (Editor.session e) = true /\
      Editor.step Editor.ClickSaveDraft e = Some e' /\
      Editor.inflight e'
        = [Editor.Request Editor.from_handleSaveDraft (Editor.session e)]) /\
  exists s db',
    save_draft 1%N 10 morning_flow ∅
      = (json_saved "Draft saved successfully" s, db').
Proof.
  split.
  - let r := eval vm_compute in
        (Editor.run [Editor.ChangeUrl []] (Editor.initial 0)) in
    match r with
    | Some ?e =>
        exists e;
        destruct (proj1 save_draft_immediate_and_draft
                    [Editor.ChangeUrl []] 0 e)
          as (e' & St & Fl & _); [vm_compute; reflexivity .. |];
        exists e'
    end.
    split; [vm_compute; reflexivity |]. split; [vm_compute; reflexivity |].
    split; [exact St | exact Fl].
  - apply (proj2 (proj2 save_draft_immediate_and_draft) 1%N 10 morning_flow ∅);
      [reflexivity |].
    split; [vm_compute; discriminate |]. split; [vm_compute; lia |].
    split; [| vm_compute; reflexivity].
    repeat constructor; vm_compute; lia.
Defined.

Lemma save_draft_then_get_one_witness :
  keyed ∅ /\
  exists s db',
    save_draft 1%N 10 morning_flow ∅
      = (json_saved "Draft saved successfully" s, db') /\
    get_one 1%N (_id s) db' = json_session s /\
    title s = lit "Morning Flow" /\ tags s = [lit "yoga"; lit "calm"].
Proof.
  split; [exact keyed_empty |].
  let r := eval vm_compute in (save_draft 1%N 10 morning_flow ∅) in
  match r with
  | (json_saved _ ?s, ?db') =>
      exists s, db';
      pose proof (save_draft_then_get_one 1%N 10 morning_flow ∅
                    "Draft saved successfully" s db' keyed_empty) as W
  end.
  split; [vm_compute; reflexivity |].
  destruct W as (G & _ & _ & _ & _ & Ti & Tg & _); [vm_compute; reflexivity |].
  split; [exact G |]. split.
  - apply (Ti (lit "Morning Flow")); [reflexivity | discriminate | reflexivity].
  - apply (Tg [lit "yoga"; lit "calm"]); [reflexivity |].
    repeat constructor; try discriminate; reflexivity.
Defined.

Lemma pagination_consistent_witness :
  1 <= Listing.page second_of_three /\ 1 <= Listing.limit second_of_three /\
  1 <= Listing.my_page my_first_of_two /\
  1 <= Listing.my_limit my_first_of_two /\
  (let p := Listing.pagination
              (Listing.get_sessions (fun _ _ => true) ∅ second_of_three
                 three_published) in
   currentPage p = 2 /\ totalSessions p = 3 /\ totalPages p = 3 /\
   hasNextPage p = true) /\
  (let p' := snd (Listing.get_my_sessions 1%N my_first_of_two three_published) in
   currentPage p' = 1 /\ totalSessions p' = 2 /\ totalPages p' = 2 /\
   hasNextPage p' = true).
Proof.
  do 4 (split; [cbn; lia |]).
  destruct (pagination_consistent (fun _ _ => true) ∅ 1%N second_of_three
              my_first_of_two three_published)
    as [(C & T & P & _ & N & _) (C' & T' & P' & _ & N' & _)];
    [cbn; lia .. |].
  split.
  - split; [exact C |]. split; [rewrite T; vm_compute; reflexivity |].
    split; [rewrite P; vm_compute; reflexivity |].
    apply N. vm_compute. reflexivity.
  - split; [exact C' |]. split; [rewrite T'; vm_compute; reflexivity |].
    split; [rewrite P'; vm_compute; reflexivity |].
    apply N'. vm_compute. reflexivity.
Defined.

Lemma invalid_token_answers_403_witness :
  Auth.token_of (Some (lit "Bearer abc.def.ghi")) = Some (lit "abc.def.ghi") /\
  Auth.authenticateToken (fun _ => Auth.throws "JsonWebTokenError") ∅
    (Some (lit "Bearer abc.def.ghi"))
    = Auth.respond 403 "Invalid token.".
Proof.
  split; [reflexivity |].
  apply (invalid_token_answers_403 (fun _ => Auth.throws "JsonWebTokenError") ∅
           (Some (lit "Bearer abc.def.ghi")) (lit "abc.def.ghi"));
    [reflexivity | discriminate | reflexivity].
Defined.

(** Some values of the definitions. *)
Example trim_inner_space : trim (lit "  Morning Flow ") = lit "Morning Flow".
Proof. reflexivity. Qed.

Example parse_tags_keeps_duplicates :
  Editor.parse_tags (lit "Yoga, Calm, yoga") = [lit "yoga"; lit "calm"; lit "yoga"].
Proof. reflexivity. Qed.

Example test_url_examples :
  test_url (lit "https://example.com/flow.json") = true /\
  test_url (lit "http://x") = true /\ test_url (lit "http://") = false /\
  test_url (lit "not-a-url") = false /\ test_url (lit "ftp://x") = false.
Proof. repeat split. Qed.

Example not_a_url_is_rejected :
  Editor.validateUrl (lit "not-a-url") = false.
Proof. reflexivity. Qed.

Example paginate_third_page :
  paginate 3 10 25
  = {| currentPage := 3; totalPages := 3; totalSessions := 25;
       hasNextPage := false |}.
Proof. reflexivity. Qed.

End RouteRuns.

(** ** More on the routes that read and write one document *)

Section RoutesExtras.
Context `{Host}.
Import Routes.

Lemma keyed_empty_map : keyed ∅.
Proof. intros i s L. by rewrite lookup_empty in L. Qed.

Lemma startsWith_app (s p : jsstring) :
  startsWith s p = true <-> exists r, s = p ++ r.
Proof.
  revert s. induction p as [| a p IH]; intros [| b s]; cbn.
  - split; [eauto | done].
  - split; [eauto | done].
  - split; [done | by intros [r [=]]].
  - rewrite andb_true_iff, N.eqb_eq, IH. split.
    + intros [-> [r ->]]. eauto.
    + intros [r [= -> ->]]. eauto.
Qed.

Lemma after_Some (p s r : jsstring) : after p s = Some r <-> s = p ++ r.
Proof.
  unfold after. destruct (startsWith s p) eqn:E.
  - apply startsWith_app in E as [r' ->]. rewrite drop_app_length.
    split; [by intros [= ->] | by intros ->%app_inv_head].
  - split; [done |]. intros ->.
    assert (startsWith (p ++ r) p = true) by (apply startsWith_app; eauto).
    congruence.
Qed.

Lemma slashes_then_dot_true (s : jsstring) :
  slashes_then_dot s = true <->
  exists c r, s = lit "://" ++ c :: r /\ is_line_terminator c = false.
Proof.
  unfold slashes_then_dot. destruct (after (lit "://") s) as [[| c r] |] eqn:E.
  - apply after_Some in E. split; [done |]. intros (c & r & -> & _).
    by apply app_inv_head in E.
  - apply after_Some in E. rewrite negb_true_iff. split.
    + intros L. eauto.
    + intros (c' & r' & -> & L). by apply app_inv_head in E as [= <- _].
  - split; [done |]. intros (c & r & -> & _).
    assert (after (lit "://") (lit "://" ++ c :: r) = Some (c :: r))
      by by apply after_Some.
    congruence.
Qed.

(** X1.  What the pattern of the schema accepts: the strings that begin
    with [http://] or [https://] and go on with at least one code unit that
    is not a line terminator. *)
Theorem test_url_accepts (v : jsstring) :
  test_url v = true <->
  exists c r, is_line_terminator c = false /\
              (v = lit "http://" ++ c :: r \/ v = lit "https://" ++ c :: r).
Proof.
  unfold test_url. destruct (after (lit "http") v) as [r0 |] eqn:E.
  - apply after_Some in E. subst v.
    assert (G : slashes_then_dot r0 = true <->
                exists c r, is_line_terminator c = false /\
                            lit "http" ++ r0 = lit "http://" ++ c :: r).
    { rewrite slashes_then_dot_true. split.
      - intros (c & r & -> & L). eauto.
      - intros (c & r & L & E). apply (app_inv_head (lit "http")) in E.
        subst r0. eauto. }
    assert (G' : forall r1, r0 = 115%N :: r1 ->
                 slashes_then_dot r1 = true <->
                 exists c r, is_line_terminator c = false /\
                             lit "http" ++ r0 = lit "https://" ++ c :: r).
    { intros r1 ->. rewrite slashes_then_dot_true. split.
      - intros (c & r & -> & L). eauto.
      - intros (c & r & L & E). apply (app_inv_head (lit "https")) in E.
        subst r1. eauto. }
    assert (N : forall c r, lit "http" ++ r0 = lit "https://" ++ c :: r ->
                exists r1, r0 = 115%N :: r1).
    { intros c r E. apply (app_inv_head (lit "http")) in E. subst r0. eauto. }
    destruct r0 as [| [| p] r1].
    + rewrite G. split; [intros (c & r & L & E); eauto |].
      intros (c & r & L & [E | E]); [eauto | by destruct (N _ _ E)].
    + rewrite G. split; [intros (c & r & L & E); eauto |].
      intros (c & r & L & [E | E]); [eauto | by destruct (N _ _ E)].
    + destruct (decide (p = 115%positive)) as [-> | Np].
      * rewrite orb_true_iff, G, (G' r1 eq_refl). split.
        -- intros [(c & r & L & E) | (c & r & L & E)]; eauto 6.
        -- intros (c & r & L & [E | E]); eauto 6.
      * assert (Hm : match N.pos p with
                     | 115%N => slashes_then_dot r1 || slashes_then_dot (N.pos p :: r1)
                     | _ => slashes_then_dot (N.pos p :: r1)
                     end = slashes_then_dot (N.pos p :: r1)).
        { do 7 (destruct p as [p | p |]; try done). }
        rewrite Hm, G. split; [intros (c & r & L & E); eauto |].
        intros (c & r & L & [E | E]); [eauto |].
        destruct (N _ _ E) as [r2 [= ->]]. done.
  - split; [done |]. intros (c & r & _ & [-> | ->]).
    + assert (after (lit "http") (lit "http://" ++ c :: r) = Some (lit "://" ++ c :: r))
        by by apply after_Some.
      congruence.
    + assert (after (lit "http") (lit "https://" ++ c :: r) = Some (lit "s://" ++ c :: r))
        by by apply after_Some.
      congruence.
Qed.


(** X2.  The owner deletes a document: the route confirms, the document is
    gone for [GET /my-sessions/:id], and every other document stays. *)
Theorem delete_one_then_get_one user id db s :
  db !! id = Some s -> user_id s = user ->
  exists db',
    delete_one user id db = (json_message "Session deleted successfully", db') /\
    get_one user id db' = not_found /\ db' !! id = None /\
    (forall j, j <> id -> db' !! j = db !! j).
Proof.
  intros L U. exists (delete id db). unfold delete_one, get_one.
  rewrite L, decide_True by done. rewrite lookup_delete_eq.
  repeat split. intros j Nj. by apply lookup_delete_ne.
Qed.

(** X3.  A document of somebody else, or none at all, under the identifier:
    reading it answers 404 as for no document, and a save, a publish or a
    delete that names it answers 400 or 404 and leaves the collection as it
    was. *)
Theorem foreign_document_is_out_of_reach user id db w :
  (forall s, db !! id = Some s -> user_id s <> user) ->
  names_document user id w ->
  get_one user id db = not_found /\
  snd (handle w db) = db /\
  exists code error,
    fst (handle w db) = json_error code error /\
    (code = 400 \/ code = 404)%nat.
Proof.
  intros F Nm. split.
  { unfold get_one. destruct (db !! id) as [s |] eqn:L; [| done].
    rewrite decide_False; [done |]. by apply F. }
  assert (U : forall m t d, data_user_id d = user ->
              snd (upsert m t (Some id) user d db) = db /\
              exists code error,
                fst (upsert m t (Some id) user d db) = json_error code error /\
                (code = 400 \/ code = 404)%nat).
  { intros m t d Hd. unfold upsert, findOneAndUpdate.
    destruct (validate (cast d)); [| cbn; eauto 6].
    destruct (db !! id) as [s |] eqn:L; [| cbn; eauto 6].
    rewrite decide_False by by apply F. cbn. eauto 6. }
  destruct w as [u t b | u t b | u i]; cbn in Nm; destruct Nm as [-> E]; cbn.
  - unfold save_draft. rewrite E. by apply U.
  - unfold publish.
    destruct (blank (req_title b)); [cbn; eauto 6 |].
    destruct (blank (req_json_file_url b)); [cbn; eauto 6 |].
    rewrite E. by apply U.
  - subst i. unfold delete_one. destruct (db !! id) as [s |] eqn:L; cbn.
    + rewrite decide_False by by apply F. cbn. eauto 6.
    + eauto 6.
Qed.


(** X4.  A save or a publish that names an existing document and succeeds
    did so for its owner, and rewrote it in place: same identifier, owner
    and creation time, the time of the request as update time, and the
    status of the route; in particular saving a published document as a
    draft takes it back to [draft].  No other document changes. *)
Theorem update_in_place user t b db id old w message s db' :
  req_id b = Some id -> db !! id = Some old ->
  w = SaveDraft user t b \/ w = Publish user t b ->
  handle w db = (json_saved message s, db') ->
  user_id old = user /\
  _id s = _id old /\ user_id s = user /\ created_at s = created_at old /\
  updated_at s = t /\
  status s = match w with Publish _ _ _ => published | _ => draft end /\
  db' = <[id := s]> db.
Proof.
  intros E L Hw.
  assert (U : forall m d,
             upsert m t (Some id) user d db = (json_saved message s, db') ->
             user_id old = user /\ _id s = _id old /\
             user_id s = data_user_id d /\ created_at s = created_at old /\
             updated_at s = t /\ status s = data_status d /\
             db' = <[id := s]> db).
  { intros m d. unfold upsert, findOneAndUpdate. rewrite L.
    destruct (validate (cast d)); [| done].
    destruct (decide (user_id old = user)); [| done].
    intros [= _ <- <-]. done. }
  destruct Hw as [-> | ->]; cbn.
  - unfold save_draft. rewrite E. intros R. by apply U in R.
  - unfold publish.
    destruct (blank (req_title b)); [done |].
    destruct (blank (req_json_file_url b)); [done |].
    rewrite E. intros R. by apply U in R.
Qed.

(** X5.  The editor posts its buffer with the identifier under [_id], and
    the routes read [id]: whatever the buffer holds, also an identifier
    adopted from an earlier save, a save or a publish sent by the editor
    either adds a document under an identifier that was free, leaving every
    document there was as it is, or is answered with 400 and changes
    nothing.  It never rewrites a document. *)
Theorem editor_saves_never_update buf user t db w :
  w = SaveDraft user t (Api.post_body buf) \/
  w = Publish user t (Api.post_body buf) ->
  (exists message s,
      handle w db = (json_saved message s, <[_id s := s]> db) /\
      db !! _id s = None /\
      size (<[_id s := s]> db) = S (size db) /\
      (forall j d, db !! j = Some d -> <[_id s := s]> db !! j = Some d)) \/
  (exists error, handle w db = (json_error 400 error, db)).
Proof.
  intros Hw.
  assert (U : forall m d,
             (exists s,
                 upsert m t None user d db = (json_saved m s, <[_id s := s]> db) /\
                 db !! _id s = None /\
                 size (<[_id s := s]> db) = S (size db) /\
                 (forall j d', db !! j = Some d' ->
                               <[_id s := s]> db !! j = Some d')) \/
             (exists error, upsert m t None user d db = (json_error 400 error, db))).
  { intros m d. unfold upsert, create.
    destruct (validate (cast d)); [left | right; eauto].
    eexists. split; [reflexivity |]. cbn.
    assert (Fr : db !! fresh (dom db) = None)
      by apply not_elem_of_dom, is_fresh.
    split; [exact Fr |]. split; [by apply map_size_insert_None |].
    intros j d' L. rewrite lookup_insert_ne; [done |]. congruence. }
  destruct Hw as [-> | ->]; cbn [handle].
  - unfold save_draft. cbn [Api.post_body req_id].
    match goal with
    | |- context [upsert ?m _ _ _ ?d _] => destruct (U m d) as [(s & R) | R]
    end; eauto.
  - unfold publish. cbn [Api.post_body req_id req_title req_json_file_url].
    destruct (blank _); [right; eauto |].
    destruct (blank _); [right; eauto |].
    match goal with
    | |- context [upsert ?m _ _ _ ?d _] => destruct (U m d) as [(s & R) | R]
    end; eauto.
Qed.

Lemma upsert_schema message t id user d db :
  data_user_id d = user ->
  (forall i s, db !! i = Some s -> schema_valid s) ->
  forall i s, snd (upsert message t id user d db) !! i = Some s -> schema_valid s.
Proof.
  intros Hu P.
  destruct (upsert_cases message t id user d db Hu)
    as [(s & k & -> & V & _ & Ti & Tg & Ur & _) | (c & m & -> & _)]; [| exact P].
  cbn. intros i s' L. destruct (decide (k = i)) as [-> | Ne].
  - rewrite lookup_insert_eq in L. injection L as <-.
    apply validate_nil in V as (V1 & V2 & V3).
    apply validate_title_None in V1 as [V1 V1'].
    apply validate_json_file_url_None in V3 as [V3 V3'].
    unfold schema_valid. rewrite Ti, Tg, Ur.
    cbn [cast data_title data_tags data_json_file_url] in *.
    unfold set_title, set_json_file_url in *.
    repeat split; try done; try apply trim_trim.
    eapply Forall_impl; [exact V2 |]. intros g. apply validate_tag_None.
  - rewrite lookup_insert_ne in L by done. eauto.
Qed.

Lemma handle_schema w db :
  (forall i s, db !! i = Some s -> schema_valid s) ->
  forall i s, snd (handle w db) !! i = Some s -> schema_valid s.
Proof.
  intros P. destruct w as [user t b | user t b | user id]; cbn.
  - by apply upsert_schema.
  - unfold publish. destruct (blank (req_title b)); [exact P |].
    destruct (blank (req_json_file_url b)); [exact P |].
    by apply upsert_schema.
  - unfold delete_one. destruct (db !! id) as [s |]; [| exact P].
    destruct (decide _); [| exact P]. cbn.
    intros i s' L. apply lookup_delete_Some in L as [_ L]. eauto.
Qed.

(** X6.  In a collection built by the routes from an empty one, every
    document, draft or published, is stored under its own identifier and is
    as the schema leaves it: a trimmed, non-empty title of at most 200 code
    units, tags of at most 50, and a trimmed data URL that matches the
    pattern. *)
Theorem routes_keep_schema ws i s :
  serve ws ∅ !! i = Some s -> _id s = i /\ schema_valid s.
Proof.
  intros L. split.
  - by apply (serve_keyed ws ∅ keyed_empty_map).
  - revert i s L. unfold serve.
    assert (G : forall ws db,
               (forall i s, db !! i = Some s -> schema_valid s) ->
               forall i s,
                 foldl (fun db w => snd (handle w db)) db ws !! i = Some s ->
                 schema_valid s).
    { clear. induction ws as [| w ws IH]; intros db P; cbn; [exact P |].
      apply IH, handle_schema, P. }
    apply G. intros i s L. by rewrite lookup_empty in L.
Qed.

End RoutesExtras.

(** ** The lists of sessions *)

Section ListingExtras.
Context `{Host}.
Import Routes Listing.

Lemma newer_first_total : Total newer_first.
Proof. intros a b. unfold newer_first. lia. Qed.

Lemma newer_first_trans : Transitive newer_first.
Proof. intros a b c. unfold newer_first. lia. Qed.

Lemma elem_of_bool_filter {A} (f : A -> bool) (l : list A) x :
  x ∈ List.filter f l <-> x ∈ l /\ f x = true.
Proof. rewrite !list_elem_of_In. apply filter_In. Qed.

Lemma elem_of_find_sorted matches db s :
  s ∈ find_sorted matches db <->
  (exists i, db !! i = Some s) /\ matches s = true.
Proof.
  unfold find_sorted. rewrite merge_sort_Permutation, elem_of_bool_filter.
  rewrite list_elem_of_fmap. split.
  - intros [([i s'] & -> & E) M]. apply elem_of_map_to_list in E. eauto.
  - intros [[i L] M]. split; [| done]. exists (i, s). split; [done |].
    by apply elem_of_map_to_list.
Qed.

Lemma elem_of_page_of page limit l s : s ∈ page_of page limit l -> s ∈ l.
Proof.
  unfold page_of. intros E.
  eapply elem_of_sublist; [| apply sublist_drop].
  eapply elem_of_sublist; [exact E | apply sublist_take].
Qed.

Lemma sublist_StronglySorted {A} (R : relation A) (l k : list A) :
  l `sublist_of` k -> StronglySorted R k -> StronglySorted R l.
Proof.
  induction 1 as [| x l k S IH | x l k S IH]; intros St.
  - constructor.
  - apply StronglySorted_inv in St as [St F]. constructor; [by apply IH |].
    apply Forall_forall. intros y Hy. rewrite Forall_forall in F.
    apply F. by eapply elem_of_sublist.
  - apply StronglySorted_inv in St as [St _]. by apply IH.
Qed.

Lemma page_of_sorted page limit matches db :
  StronglySorted newer_first (page_of page limit (find_sorted matches db)).
Proof.
  eapply sublist_StronglySorted;
    [| apply (@StronglySorted_merge_sort _ newer_first _
                newer_first_trans newer_first_total)].
  unfold page_of. etrans; [apply sublist_take | apply sublist_drop].
Qed.

(** The page [page] of a list, [limit] to the page: how many it holds, that
    it is followed by what [hasNextPage] announces, and that it is empty
    past the end. *)
Lemma page_of_counts (l : list Session) page limit :
  1 <= page -> 1 <= limit ->
  Z.of_nat (length (page_of page limit l))
    = Z.min limit (Z.max 0 (Z.of_nat (length l) - (page - 1) * limit)) /\
  (hasNextPage (paginate page limit (Z.of_nat (length l))) = true <->
   drop (Z.to_nat (page * limit)) l <> []) /\
  page_of page limit l ++ drop (Z.to_nat (page * limit)) l
    = drop (Z.to_nat ((page - 1) * limit)) l.
Proof.
  intros Hp Hl. unfold page_of. split; [| split].
  - rewrite length_take, length_drop. nia.
  - cbn. rewrite Z.ltb_lt. split.
    + intros L E. apply drop_nil_inv in E. nia.
    + intros N. destruct (decide (page * limit < Z.of_nat (length l))); [done |].
      exfalso. apply N, drop_ge. nia.
  - replace (Z.to_nat (page * limit))
      with (Z.to_nat ((page - 1) * limit) + Z.to_nat limit)%nat by nia.
    rewrite <- drop_drop. apply take_drop.
Qed.

(** X7.  [GET /sessions] lists only published documents of the collection,
    each with the owner [populate] finds; with a [tags] parameter each one
    carries one of the tags asked for, and with a [search] parameter each
    one matches the search. *)
Theorem get_sessions_only_published text_matches users q db x :
  x ∈ sessions (get_sessions text_matches users q db) ->
  status (session x) = published /\
  (exists i, db !! i = Some (session x)) /\
  owner x = users !! user_id (session x) /\
  (forall t, q_tags q = Some t -> t <> [] ->
     exists g, g ∈ tags (session x) /\ g ∈ tagArray t) /\
  (forall v, q_search q = Some v -> v <> [] ->
     text_matches v (session x) = true).
Proof.
  cbn. intros E. apply list_elem_of_fmap in E as (s & -> & E). cbn.
  apply elem_of_page_of, elem_of_find_sorted in E as [D M].
  unfold matches_published in M.
  apply andb_true_iff in M as [M M3]. apply andb_true_iff in M as [M1 M2].
  apply bool_decide_eq_true in M1.
  split; [done |]. split; [done |]. split; [done |]. split.
  - intros t Et Nt. rewrite Et in M2. destruct t; [done |]. cbn [truthy] in M2.
    apply existsb_exists in M2 as (g & Hg & Hm).
    apply bool_decide_eq_true in Hm. exists g. by rewrite list_elem_of_In.
  - intros v Ev Nv. rewrite Ev in M3. by destruct v.
Qed.

(** X8.  [GET /my-sessions] lists only documents of the collection that
    belong to the caller, and with [status=draft] or [status=published]
    only those of that status. *)
Theorem get_my_sessions_only_own user q db s :
  s ∈ fst (get_my_sessions user q db) ->
  user_id s = user /\ (exists i, db !! i = Some s) /\
  (my_status q = Some (lit "draft") -> status s = draft) /\
  (my_status q = Some (lit "published") -> status s = published).
Proof.
  cbn. intros E. apply elem_of_page_of, elem_of_find_sorted in E as [D M].
  unfold matches_own in M. apply andb_true_iff in M as [M1 M2].
  apply bool_decide_eq_true in M1. split; [done |]. split; [done |].
  split; intros Es; rewrite Es in M2; cbn in M2;
    by apply bool_decide_eq_true in M2.
Qed.

(** X9.  Any other value of [status] is ignored: the answer is the one to
    the request without [status]. *)
Theorem get_my_sessions_ignores_other_status user v page limit db :
  v <> lit "draft" -> v <> lit "published" ->
  get_my_sessions user
    {| my_status := Some v; my_page := page; my_limit := limit |} db
  = get_my_sessions user
      {| my_status := None; my_page := page; my_limit := limit |} db.
Proof.
  intros Nd Np. unfold get_my_sessions, find_sorted. cbn [my_page my_limit].
  assert (E : List.filter
                (matches_own user
                   {| my_status := Some v; my_page := page; my_limit := limit |})
                (map_to_list db).*2
              = List.filter
                  (matches_own user
                     {| my_status := None; my_page := page; my_limit := limit |})
                  (map_to_list db).*2).
  { apply List.filter_ext. intros s. unfold matches_own, status_named.
    cbn [my_status].
    rewrite (bool_decide_eq_false_2 (v = lit "draft")) by done.
    by rewrite (bool_decide_eq_false_2 (v = lit "published")). }
  by rewrite E.
Qed.

(** X10.  A page of either list, for a page number and a limit of at least
    one: it is sorted from the newest update to the oldest, it holds
    [limit] sessions or what is left of the matching documents after the
    pages before it (nothing, past the last page), [totalSessions] counts
    all the matching documents, and [hasNextPage] holds exactly when
    matching documents remain after this page. *)
Theorem pages_of_lists text_matches users user q mq db :
  1 <= page q -> 1 <= limit q -> 1 <= my_page mq -> 1 <= my_limit mq ->
  let r := get_sessions text_matches users q db in
  let found := find_sorted (matches_published text_matches q) db in
  let r' := get_my_sessions user mq db in
  let found' := find_sorted (matches_own user mq) db in
  (StronglySorted newer_first (List.map session (sessions r)) /\
   Z.of_nat (length (sessions r))
     = Z.min (limit q)
         (Z.max 0 (Z.of_nat (length found) - (page q - 1) * limit q)) /\
   totalSessions (pagination r) = Z.of_nat (length found) /\
   (hasNextPage (pagination r) = true <->
    drop (Z.to_nat (page q * limit q)) found <> [])) /\
  (StronglySorted newer_first (fst r') /\
   Z.of_nat (length (fst r'))
     = Z.min (my_limit mq)
         (Z.max 0 (Z.of_nat (length found') - (my_page mq - 1) * my_limit mq)) /\
   totalSessions (snd r') = Z.of_nat (length found') /\
   (hasNextPage (snd r') = true <->
    drop (Z.to_nat (my_page mq * my_limit mq)) found' <> [])).
Proof.
  intros P1 L1 P2 L2. cbn zeta. split.
  - destruct (page_of_counts
                (find_sorted (matches_published text_matches q) db)
                (page q) (limit q) P1 L1) as (C & N & _).
    cbn [get_sessions sessions pagination].
    rewrite List.map_map, List.map_id, length_map.
    split; [apply page_of_sorted |]. split; [exact C |]. split; [done | exact N].
  - destruct (page_of_counts (find_sorted (matches_own user mq) db)
                (my_page mq) (my_limit mq) P2 L2) as (C & N & _).
    cbn [get_my_sessions fst snd].
    split; [apply page_of_sorted |]. split; [exact C |]. split; [done | exact N].
Qed.

End ListingExtras.

(** ** Splitting and joining *)

Section SplitJoin.

Lemma split_app (c : N) (p r : jsstring) :
  c ∉ p -> split c (p ++ c :: r) = p :: split c r.
Proof.
  induction p as [| a p IH]; intros Hc; cbn.
  - by rewrite N.eqb_refl.
  - apply not_elem_of_cons in Hc as [Na Hp].
    destruct (N.eqb_spec a c) as [-> | _]; [done |]. by rewrite (IH Hp).
Qed.

Lemma split_no_separator (c : N) (p : jsstring) : c ∉ p -> split c p = [p].
Proof.
  induction p as [| a p IH]; intros Hc; cbn; [done |].
  apply not_elem_of_cons in Hc as [Na Hp].
  destruct (N.eqb_spec a c) as [-> | _]; [done |]. by rewrite (IH Hp).
Qed.

(** Joining with a separator that begins with [c] and splitting at [c]
    gives the parts back, all but the first behind the rest of the
    separator. *)
Lemma split_join (c : N) (s : jsstring) (p : jsstring) (rest : list jsstring) :
  c ∉ s -> Forall (fun q => c ∉ q) (p :: rest) ->
  split c (join (c :: s) (p :: rest)) = p :: List.map (app s) rest.
Proof.
  intros Hs. revert p. induction rest as [| q rest IH]; intros p Hp.
  - apply Forall_cons in Hp as [Hp _]. cbn. by apply split_no_separator.
  - apply Forall_cons in Hp as [Hp Hq].
    change (join (c :: s) (p :: q :: rest))
      with (p ++ (c :: s) ++ join (c :: s) (q :: rest)).
    cbn [app]. rewrite (split_app c p _ Hp). f_equal.
    assert (E : s ++ join (c :: s) (q :: rest)
                = join (c :: s) ((s ++ q) :: rest)).
    { destruct rest; cbn; [done |]. by rewrite <- app_assoc. }
    rewrite E, IH; [done |].
    apply Forall_cons in Hq as [Hq Hr]. apply Forall_cons. split; [| done].
    rewrite elem_of_app. tauto.
Qed.

End SplitJoin.

(** ** The two pages that list sessions *)

Section PagesExtras.
Context `{Host}.
Import Routes.

Lemma filter_has_status_fixed st (l : list Session) :
  Forall (fun s => status s = st) l ->
  List.filter (MySessions.has_status st) l = l.
Proof.
  induction 1 as [| s l Hs _ IH]; cbn; [done |].
  unfold MySessions.has_status at 1. rewrite bool_decide_eq_true_2 by done.
  by rewrite IH.
Qed.

Lemma filter_has_status_none st st' (l : list Session) :
  st <> st' -> Forall (fun s => status s = st) l ->
  List.filter (MySessions.has_status st') l = [].
Proof.
  intros Ne. induction 1 as [| s l Hs _ IH]; cbn; [done |].
  unfold MySessions.has_status at 1.
  rewrite bool_decide_eq_false_2 by congruence. exact IH.
Qed.

Lemma length_filter_has_status st (l : list Session) :
  length (List.filter (MySessions.has_status st) l)
  = count_occ session_status_eq_dec (List.map status l) st.
Proof.
  unfold MySessions.has_status.
  induction l as [| s l IH]; cbn; [done |].
  destruct (session_status_eq_dec (status s) st) as [E | N].
  - rewrite (bool_decide_eq_true_2 _ E). cbn. by rewrite IH.
  - by rewrite (bool_decide_eq_false_2 _ N).
Qed.

(** X11.  The page of one's own sessions shows what it fetched: the filter
    it applies again leaves the sessions the route sent for that filter as
    they are.  Its three counters are over the fetched sessions only: the
    first is their number, the two others the numbers of drafts and of
    published sessions among them, so the first is the sum of the two
    others; under the filter of one status the counter of that status
    equals the first and the counter of the other status is 0. *)
Theorem my_sessions_page_counts user f page limit db :
  let fetched :=
    fst (Listing.get_my_sessions user
           {| Listing.my_status := MySessions.params f;
              Listing.my_page := page; Listing.my_limit := limit |} db) in
  let c := MySessions.getSessionCounts fetched in
  MySessions.filteredSessions f fetched = fetched /\
  MySessions.count_all c
    = (MySessions.count_draft c + MySessions.count_published c)%nat /\
  (f = MySessions.only draft ->
   MySessions.count_draft c = MySessions.count_all c /\
   MySessions.count_published c = 0%nat) /\
  (f = MySessions.only published ->
   MySessions.count_published c = MySessions.count_all c /\
   MySessions.count_draft c = 0%nat) /\
  MySessions.count_all c = length fetched /\
  MySessions.count_draft c
    = count_occ session_status_eq_dec (List.map status fetched) draft /\
  MySessions.count_published c
    = count_occ session_status_eq_dec (List.map status fetched) published.
Proof.
  cbn zeta. set (q := Listing.Build_my_query _ _ _).
  set (fetched := fst (Listing.get_my_sessions user q db)).
  assert (St : forall st, f = MySessions.only st ->
                 Forall (fun s => status s = st) fetched).
  { intros st ->. apply Forall_forall. intros s Hs.
    destruct (get_my_sessions_only_own user q db s Hs) as (_ & _ & D & P).
    destruct st; [by apply D | by apply P]. }
  clearbody fetched. clear q.
  assert (Sum : forall l : list Session,
             length l
             = (length (List.filter (MySessions.has_status draft) l)
                + length (List.filter (MySessions.has_status published) l))%nat).
  { unfold MySessions.has_status.
    induction l as [| s l IH]; cbn; [done |].
    destruct (status s).
    - rewrite (bool_decide_eq_true_2 (draft = draft)) by done.
      rewrite (bool_decide_eq_false_2 (draft = published)) by done.
      cbn. lia.
    - rewrite (bool_decide_eq_true_2 (published = published)) by done.
      rewrite (bool_decide_eq_false_2 (published = draft)) by done.
      cbn. lia. }
  split; [| split; [apply Sum | split; [| split]]].
  - destruct f as [| st]; cbn; [done |].
    apply filter_has_status_fixed. by apply St.
  - intros E. specialize (St _ E).
    cbn [MySessions.getSessionCounts MySessions.count_all
         MySessions.count_draft MySessions.count_published].
    rewrite (filter_has_status_fixed _ _ St).
    by rewrite (filter_has_status_none draft published _ ltac:(done) St).
  - intros E. specialize (St _ E).
    cbn [MySessions.getSessionCounts MySessions.count_all
         MySessions.count_draft MySessions.count_published].
    rewrite (filter_has_status_fixed _ _ St).
    by rewrite (filter_has_status_none published draft _ ltac:(done) St).
  - cbn [MySessions.getSessionCounts MySessions.count_all
         MySessions.count_draft MySessions.count_published].
    split; [done |]. split; apply length_filter_has_status.
Qed.

(** X12.  After a delete that the route confirmed, the list that
    [handleDelete] keeps holds no session with the deleted identifier, and
    each session it still shows that was in the collection before the
    delete is in it after the delete. *)
Theorem my_sessions_after_delete user id db db' message shown s :
  delete_one user id db = (json_message message, db') ->
  s ∈ MySessions.deleted id shown ->
  s ∈ shown /\ _id s <> id /\
  (db !! _id s = Some s -> db' !! _id s = Some s).
Proof.
  unfold delete_one. intros D Hs.
  apply elem_of_bool_filter in Hs as [Hs N].
  apply negb_true_iff, bool_decide_eq_false in N.
  split; [done |]. split; [done |].
  destruct (db !! id) as [old |]; [| done].
  destruct (decide (user_id old = user)); [| done].
  injection D as _ <-. intros L. by rewrite lookup_delete_ne.
Qed.

(** X13.  Toggling a tag of a selection without duplicates leaves it
    without duplicates, puts the tag in if it was out and out if it was in,
    and leaves the other tags where they were; toggling twice a tag that
    was out gives the selection back. *)
Theorem toggleTag_selection tag prev :
  NoDup prev ->
  NoDup (Dashboard.toggleTag tag prev) /\
  (tag ∈ Dashboard.toggleTag tag prev <-> tag ∉ prev) /\
  (forall t, t <> tag -> t ∈ Dashboard.toggleTag tag prev <-> t ∈ prev) /\
  (tag ∉ prev ->
   Dashboard.toggleTag tag (Dashboard.toggleTag tag prev) = prev).
Proof.
  intros Nd. unfold Dashboard.toggleTag.
  destruct (bool_decide (tag ∈ prev)) eqn:E.
  - apply bool_decide_eq_true in E. split; [| split; [| split]].
    + clear E. induction Nd as [| x l Hx Nd IH]; cbn; [constructor |].
      destruct (negb _); [| done]. constructor; [| done].
      rewrite elem_of_bool_filter. tauto.
    + rewrite elem_of_bool_filter, negb_true_iff, bool_decide_eq_false.
      tauto.
    + intros t Nt. rewrite elem_of_bool_filter, negb_true_iff, bool_decide_eq_false.
      tauto.
    + done.
  - apply bool_decide_eq_false in E. split; [| split; [| split]].
    + apply NoDup_app. split; [done |]. split; [| apply NoDup_singleton].
      intros x Hx ->%list_elem_of_singleton. done.
    + rewrite elem_of_app, list_elem_of_singleton. tauto.
    + intros t Nt. rewrite elem_of_app, list_elem_of_singleton. tauto.
    + intros _. rewrite bool_decide_eq_true_2
        by (rewrite elem_of_app, list_elem_of_singleton; tauto).
      rewrite List.filter_app. cbn. rewrite bool_decide_eq_true_2 by done.
      cbn. rewrite app_nil_r. clear Nd.
      induction prev as [| x l IH]; cbn; [done |].
      apply not_elem_of_cons in E as [Nx Hl].
      rewrite bool_decide_eq_false_2 by done. cbn. by rewrite IH.
Qed.

Lemma set_add_spec acc tag :
  NoDup acc ->
  NoDup (Dashboard.set_add acc tag) /\
  forall g, g ∈ Dashboard.set_add acc tag <-> g ∈ acc \/ g = tag.
Proof.
  intros Nd. unfold Dashboard.set_add.
  destruct (bool_decide (tag ∈ acc)) eqn:E.
  - apply bool_decide_eq_true in E. split; [done |].
    intros g. split; [tauto | intros [? | ->]; done].
  - apply bool_decide_eq_false in E. split.
    + apply NoDup_app. split; [done |]. split; [| apply NoDup_singleton].
      intros x Hx ->%list_elem_of_singleton. done.
    + intros g. by rewrite elem_of_app, list_elem_of_singleton.
Qed.

Lemma foldl_set_add_spec tags : forall acc,
  NoDup acc ->
  NoDup (foldl Dashboard.set_add acc tags) /\
  forall g, g ∈ foldl Dashboard.set_add acc tags <-> g ∈ acc \/ g ∈ tags.
Proof.
  induction tags as [| t tags IH]; intros acc Nd; cbn.
  - split; [done |]. intros g. rewrite elem_of_nil. tauto.
  - destruct (set_add_spec acc t Nd) as [Nd' M].
    destruct (IH _ Nd') as [Nd'' M']. split; [done |].
    intros g. rewrite M', M, elem_of_cons. tauto.
Qed.

(** X14.  The tags offered as filters on the public page are the tags of
    the sessions fetched, each exactly once. *)
Theorem allTags_each_once (fetched : list Session) :
  NoDup (Dashboard.allTags fetched) /\
  forall g, g ∈ Dashboard.allTags fetched <->
            exists s, s ∈ fetched /\ g ∈ tags s.
Proof.
  unfold Dashboard.allTags.
  assert (G : forall l acc,
             NoDup acc ->
             NoDup (foldl (fun acc s => foldl Dashboard.set_add acc (tags s)) acc l) /\
             forall g,
               g ∈ foldl (fun acc s => foldl Dashboard.set_add acc (tags s)) acc l
               <-> g ∈ acc \/ exists s, s ∈ l /\ g ∈ tags s).
  { induction l as [| s l IH]; intros acc Nd; cbn.
    - split; [done |]. intros g. split; [tauto |].
      intros [? | (s & Hs & _)]; [done | by apply elem_of_nil in Hs].
    - destruct (foldl_set_add_spec (tags s) acc Nd) as [Nd' M].
      destruct (IH _ Nd') as [Nd'' M']. split; [done |].
      intros g. rewrite M', M. split.
      + intros [[? | ?] | (s' & Hs & Hg)]; [tauto | right | right].
        * exists s. split; [apply list_elem_of_here | done].
        * exists s'. split; [by apply list_elem_of_further | done].
      + intros [? | (s' & Hs & Hg)]; [tauto |].
        apply elem_of_cons in Hs as [-> | Hs]; [tauto | right; eauto]. }
  destruct (G fetched [] (NoDup_nil_2)) as [Nd M]. split; [done |].
  intros g. rewrite M, elem_of_nil. tauto.
Qed.

(** X15.  The selection of tags that the public page sends reaches the
    query as it was selected: for a selection that is not empty, of
    non-empty tags without comma, [handleSearch] sends a non-empty [tags]
    parameter, and the route splits it into the selected tags, each trimmed
    and lower-cased.  With nothing selected no [tags] parameter is sent. *)
Theorem selected_tags_reach_the_query term (selected : list jsstring) :
  Forall (fun g => g <> [] /\ Editor.comma ∉ g) selected ->
  match selected with
  | [] => Dashboard.tags (Dashboard.handleSearch term selected) = None
  | _ :: _ =>
      exists t,
        Dashboard.tags (Dashboard.handleSearch term selected) = Some t /\
        t <> [] /\
        Listing.tagArray t
          = List.map (fun g => toLowerCase (trim g)) selected
  end.
Proof.
  intros F. destruct selected as [| p rest]; [done |].
  exists (join [Editor.comma] (p :: rest)). split; [done |].
  pose proof F as F'. apply Forall_cons in F' as [[Np _] _]. split.
  - destruct p; [done |]. by destruct rest.
  - unfold Listing.tagArray. rewrite split_join.
    + cbn [app]. by rewrite List.map_id.
    + apply not_elem_of_nil.
    + eapply Forall_impl; [exact F |]. by intros g [_ ?].
Qed.

End PagesExtras.

(** ** The middleware, the headers and the auth context *)

Section AuthExtras.

(** X16.  The middleware lets a request through exactly when its header
    carries a non-empty second word that [jwt.verify] decodes to a user who
    exists, and then as that user; every refusal is a 401, a 403 or a
    500. *)
Theorem authenticateToken_lets_through verify users authHeader :
  (forall u,
      Auth.authenticateToken verify users authHeader = Auth.next u <->
      exists token,
        Auth.token_of authHeader = Some token /\ token <> [] /\
        verify token = Auth.decoded u /\ u ∈ users) /\
  (forall code error,
      Auth.authenticateToken verify users authHeader = Auth.respond code error ->
      code = 401 \/ code = 403 \/ code = 500)%nat.
Proof.
  unfold Auth.authenticateToken.
  destruct (Auth.token_of authHeader) as [[| c token] |] eqn:T.
  - split; [| intros code error [= <- _]; tauto].
    intros u. split; [done |]. by intros (t & [= <-] & N & _).
  - destruct (verify (c :: token)) as [w | name] eqn:V.
    + destruct (decide (w ∈ users)) as [In | Out]; split.
      * intros u. split.
        -- intros [= <-]. exists (c :: token). done.
        -- intros (t & [= <-] & _ & E & _). rewrite V in E. by injection E as ->.
      * intros code error [=].
      * intros u. split; [done |].
        intros (t & [= <-] & _ & E & In). rewrite V in E. injection E as <-. done.
      * intros code error [= <- _]. tauto.
    + split.
      * intros u. split; [by repeat case_match |].
        intros (t & [= <-] & _ & E & _). congruence.
      * intros code error. repeat case_match; intros [= <- _]; tauto.
  - split; [| intros code error [= <- _]; tauto].
    intros u. split; [done |]. by intros (t & [=] & _).
Qed.

Lemma lit_app (a b : string) : lit (a ++ b) = lit a ++ lit b.
Proof.
  unfold lit. induction a as [| c a IH]; [done |].
  change (String c a +:+ b) with (String c (a +:+ b)). cbn. by rewrite IH.
Qed.

Lemma lit_nonempty (t : string) : AuthContext.nonempty t = true -> lit t <> [].
Proof. by destruct t. Qed.

(** The header that the client builds from a token without space is read
    back by the middleware as that token. *)
Lemma token_of_bearer (t : string) :
  Auth.space ∉ lit t ->
  Auth.token_of (Some (lit ("Bearer " ++ t))) = Some (lit t).
Proof.
  intros Ns. rewrite lit_app.
  change (lit "Bearer ") with (lit "Bearer" ++ [Auth.space]).
  rewrite <- app_assoc. cbn [app].
  unfold Auth.token_of.
  replace (truthy (lit "Bearer" ++ Auth.space :: lit t)) with true by done.
  rewrite split_app;
    [| rewrite list_elem_of_In; vm_compute; intuition discriminate].
  by rewrite split_no_separator.
Qed.

Context {User : Type}.
Variable stringify : User -> string.

(** X17.  After [login] with a non-empty token without space, the context
    is authenticated as the user given, every request carries
    [Bearer <token>], the middleware reads the token back from it, and so
    lets the request through whenever [jwt.verify] decodes that token to an
    existing user. *)
Theorem login_then_requests newToken (newUser : User) a :
  AuthContext.nonempty newToken = true -> Auth.space ∉ lit newToken ->
  let a' := AuthContext.login stringify newToken newUser a in
  AuthContext.isAuthenticated a' = true /\
  AuthContext.user a' = Some newUser /\
  AuthContext.authorization a' = Some ("Bearer " ++ newToken)%string /\
  Auth.token_of (lit <$> AuthContext.authorization a') = Some (lit newToken) /\
  forall verify users u,
    verify (lit newToken) = Auth.decoded u -> u ∈ users ->
    Auth.authenticateToken verify users (lit <$> AuthContext.authorization a')
      = Auth.next u.
Proof.
  intros Ne Ns. cbn zeta.
  assert (A : AuthContext.authorization
                (AuthContext.login stringify newToken newUser a)
              = Some ("Bearer " ++ newToken)%string).
  { unfold AuthContext.authorization, AuthContext.login. cbn.
    rewrite lookup_insert_ne by done. rewrite lookup_insert_eq. by rewrite Ne. }
  split; [exact Ne |]. split; [done |]. split; [exact A |].
  rewrite A. cbn [fmap option_fmap option_map].
  split; [by apply token_of_bearer |].
  intros verify users u V In.
  apply (authenticateToken_lets_through verify users).
  exists (lit newToken). split; [by apply token_of_bearer |].
  split; [by apply lit_nonempty | done].
Qed.

(** Removing the two items of the session from the storage: afterwards
    neither is there, every other item is as before, and the location is
    unchanged. *)
Lemma removeItems_storage (b : Api.browser) :
  let b' := AuthContext.removeItem "wellness_user"
              (AuthContext.removeItem "wellness_token" b) in
  Api.localStorage b' !! "wellness_token" = None /\
  Api.localStorage b' !! "wellness_user" = None /\
  (forall k, k <> "wellness_token" -> k <> "wellness_user" ->
             Api.localStorage b' !! k = Api.localStorage b !! k) /\
  Api.href b' = Api.href b.
Proof.
  cbn. split; [| split; [| split; [| done]]].
  - rewrite lookup_delete_ne by done. by rewrite lookup_delete_eq.
  - by rewrite lookup_delete_eq.
  - intros k N1 N2. by rewrite !lookup_delete_ne.
Qed.

(** X18.  After [logout], whatever came before, the context is not
    authenticated and has no user, the storage holds neither
    [wellness_token] nor [wellness_user] while its other items and the
    location are as before, requests carry no [Authorization] header, and
    the middleware answers them with 401; a [login] before the [logout]
    leaves no trace. *)
Theorem logout_then_requests (a : AuthContext.auth User) :
  let a' := AuthContext.logout a in
  AuthContext.isAuthenticated a' = false /\
  AuthContext.user a' = None /\
  AuthContext.token a' = None /\
  Api.localStorage (AuthContext.browser a') !! "wellness_token" = None /\
  Api.localStorage (AuthContext.browser a') !! "wellness_user" = None /\
  (forall k, k <> "wellness_token" -> k <> "wellness_user" ->
             Api.localStorage (AuthContext.browser a') !! k
             = Api.localStorage (AuthContext.browser a) !! k) /\
  Api.href (AuthContext.browser a') = Api.href (AuthContext.browser a) /\
  AuthContext.stored a' = None /\
  AuthContext.default_header a' = None /\
  AuthContext.authorization a' = None /\
  (forall verify users,
      Auth.authenticateToken verify users (lit <$> AuthContext.authorization a')
      = Auth.respond 401 "Access denied. No token provided.") /\
  forall t u, AuthContext.logout (AuthContext.login stringify t u a) = a'.
Proof.
  cbn zeta.
  destruct (removeItems_storage (AuthContext.browser a)) as (Rt & Ru & Rk & Rh).
  assert (A : AuthContext.authorization (AuthContext.logout a) = None).
  { unfold AuthContext.authorization, AuthContext.logout. cbn.
    rewrite lookup_delete_ne by done. by rewrite lookup_delete_eq. }
  split; [done |]. split; [done |]. split; [done |].
  split; [exact Rt |]. split; [exact Ru |]. split; [exact Rk |].
  split; [exact Rh |].
  split; [| split; [done | split; [exact A | split]]].
  - unfold AuthContext.stored, AuthContext.logout. cbn.
    rewrite lookup_delete_ne by done. by rewrite lookup_delete_eq.
  - intros verify users. by rewrite A.
  - intros t u. unfold AuthContext.logout, AuthContext.login. cbn. f_equal.
    unfold AuthContext.removeItem, AuthContext.setItem. cbn. f_equal.
    apply map_eq. intros k.
    destruct (decide (k = "wellness_user")) as [-> | N1].
    { by rewrite !lookup_delete_eq. }
    rewrite !(lookup_delete_ne _ "wellness_user") by done.
    destruct (decide (k = "wellness_token")) as [-> | N2].
    { by rewrite !lookup_delete_eq. }
    rewrite !(lookup_delete_ne _ "wellness_token") by done.
    by rewrite !lookup_insert_ne.
Qed.



End AuthExtras.

Section TearDown.

(** X25.  A request without header, with a header of one word or with an
    empty second word, with an expired token, or with the token of a user
    who is gone is answered with 401.  On 401 the response interceptor
    removes the stored token and user, keeps every other item, and goes to
    the login page; on any other status, and without answer, it leaves the
    storage and the location alone. *)
Theorem refusals_with_401_tear_down verify users authHeader :
  Auth.token_of authHeader = None \/ Auth.token_of authHeader = Some [] \/
  (exists token, Auth.token_of authHeader = Some token /\ token <> [] /\
     (verify token = Auth.throws "TokenExpiredError" \/
      exists u, verify token = Auth.decoded u /\ u ∉ users)) ->
  (exists error,
      Auth.authenticateToken verify users authHeader = Auth.respond 401 error) /\
  forall b,
    Api.localStorage (Api.on_error (Some 401%nat) b) !! "wellness_token" = None /\
    Api.localStorage (Api.on_error (Some 401%nat) b) !! "wellness_user" = None /\
    (forall k, k <> "wellness_token" -> k <> "wellness_user" ->
       Api.localStorage (Api.on_error (Some 401%nat) b) !! k
       = Api.localStorage b !! k) /\
    Api.href (Api.on_error (Some 401%nat) b) = "/login" /\
    Api.on_error None b = b /\
    forall code, code <> 401%nat -> Api.on_error (Some code) b = b.
Proof.
  intros Hc. split.
  - unfold Auth.authenticateToken.
    destruct Hc as [-> | [-> | (token & -> & Hn & Hv)]]; [eauto | eauto |].
    destruct token; [done |]. cbn.
    destruct Hv as [-> | (u & -> & Hu)]; [cbn; eauto |].
    rewrite decide_False by done. eauto.
  - intros b. cbn. split; [| split; [| split; [| split; [done | split; [done |]]]]].
    + rewrite lookup_delete_ne by done. apply lookup_delete_eq.
    + apply lookup_delete_eq.
    + intros k N1 N2. by rewrite !lookup_delete_ne.
    + intros code Nc. unfold Api.on_error.
      destruct (Nat.eqb_spec code 401); [done | done].
Qed.

End TearDown.

(** ** More on the editor *)

Section EditorExtras.
Context `{Host}.
Import Editor.

(** When the dependencies changed and nothing is unsaved, the effect sets
    no timer. *)
Lemma commit_idle e :
  weak_timers e -> deps e <> effect_deps e -> hasUnsavedChanges e = false ->
  timeouts (commit e) = [].
Proof.
  intros W D U. unfold commit. destruct (decide _); [done |].
  assert (C : timeouts (match effect_timer e with
                        | Some t => clearTimeout t e
                        | None => e
                        end) = []).
  { destruct W as [E | (i & d & c & E & T)].
    - destruct (effect_timer e); cbn; rewrite E; done.
    - rewrite T; cbn. rewrite E; cbn. by rewrite Nat.eqb_refl. }
  destruct (effect_timer e); cbn in *; rewrite U; cbn; done.
Qed.


(** X21.  When a draft save is answered, the save ends, the buffer counts
    as saved at the time of the answer, whatever was edited meanwhile, and
    no timer is pending; title, tags, URL and status of the buffer are
    kept, and the identifier of the answer is taken over if the buffer that
    was sent had none. *)
Theorem resolved_save_marks_clean tr t0 e n resp r e' :
  run tr (initial t0) = Some e -> inflight e !! n = Some r ->
  r_origin r <> from_handlePublish ->
  step (Resolved n resp) e = Some e' ->
  isSaving e' = false /\ hasUnsavedChanges e' = false /\
  lastSaved e' = Some (now e) /\ inflight e' = [] /\ timeouts e' = [] /\
  title (session e') = title (session e) /\
  tags (session e') = tags (session e) /\
  json_file_url (session e') = json_file_url (session e) /\
  status (session e') = status (session e) /\
  _id (session e') = match _id (r_session r), resp with
                     | None, Some i => Some i
                     | _, _ => _id (session e)
                     end.
Proof.
  intros R L No St. pose proof (reachable_inv _ _ _ R) as I.
  assert (M : mounted e = true).
  { unfold step in St. by destruct (mounted e). }
  unfold step in St. rewrite M in St. cbn in St. rewrite L in St.
  destruct (answered e n r I M L) as (S & E & Dl & C & D).
  rewrite Dl in St.
  assert (St' : e' = commit (draft_saved r resp (set_inflight e []))).
  { destruct (r_origin r); by injection St as <-. }
  subst e'. clear St.
  set (e2 := draft_saved r resp (set_inflight e [])).
  assert (P : isSaving e2 = false /\ hasUnsavedChanges e2 = false /\
              lastSaved e2 = Some (now e) /\ inflight e2 = [] /\
              timeouts e2 = [] /\ deps e2 <> effect_deps e2 /\
              title (session e2) = title (session e) /\
              tags (session e2) = tags (session e) /\
              json_file_url (session e2) = json_file_url (session e) /\
              status (session e2) = status (session e) /\
              _id (session e2) = match _id (r_session r), resp with
                                 | None, Some i => Some i
                                 | _, _ => _id (session e)
                                 end).
  { subst e2. unfold draft_saved.
    destruct (_id (r_session r)), resp; cbn; repeat split; try done.
    all: rewrite D; unfold deps; rewrite S; intros [=]. }
  destruct P as (S2 & U2 & Ls2 & F2 & T2 & D2 & P).
  destruct (commit_frame e2) as (Es & Ei & Eu & Ef & El & _).
  split; [by rewrite Ei |]. split; [by rewrite Eu |]. split; [by rewrite El |].
  split; [by rewrite Ef |].
  split; [apply commit_idle; [by left | done | done] |].
  rewrite Es. exact P.
Qed.

(** X22.  When a publish is answered, the editor is left: it is unmounted
    with no timer pending and nothing in flight, and nothing happens to it
    any more, so no automatic save follows a publish. *)
Theorem resolved_publish_leaves tr t0 e n resp r e' :
  run tr (initial t0) = Some e -> inflight e !! n = Some r ->
  r_origin r = from_handlePublish ->
  step (Resolved n resp) e = Some e' ->
  mounted e' = false /\ timeouts e' = [] /\ inflight e' = [] /\
  session e' = session e /\ forall ev, step ev e' = None.
Proof.
  intros R L Or St. pose proof (reachable_inv _ _ _ R) as I.
  assert (M : mounted e = true).
  { unfold step in St. by destruct (mounted e). }
  unfold step in St. rewrite M in St. cbn in St. rewrite L, Or in St.
  destruct (answered e n r I M L) as (S & E & Dl & C & D).
  rewrite Dl in St. injection St as <-.
  unfold publish_done, unmount. cbn [effect_timer setIsSaving add_toast
    setHasUnsavedChanges set_inflight].
  assert (G : forall e1, mounted e1 = false -> forall ev, step ev e1 = None).
  { intros e1 M1 ev. unfold step. by rewrite M1. }
  destruct (effect_timer e); cbn; rewrite C; repeat split; try done;
    by apply G.
Qed.

Lemma step_keeps_id ev e e' :
  inv e -> requests_carry_id e -> is_load ev = false ->
  step ev e = Some e' ->
  requests_carry_id e' /\
  forall i, _id (session e) = Some i -> _id (session e') = Some i.
Proof.
  intros I J Nl St.
  assert (M : mounted e = true).
  { unfold step in St. by destruct (mounted e). }
  pose proof I as [F T']. destruct (T' M) as [D T].
  assert (Send : forall o,
             isSaving e = false ->
             requests_carry_id (commit (send o (session e) (setIsSaving e true)))).
  { intros o S. unfold requests_carry_id.
    rewrite commit_inflight, commit_session. cbn.
    destruct F as [[_ ->] | [F _]]; [| congruence].
    by repeat constructor. }
  assert (Edit : forall e1,
             inflight e1 = inflight e ->
             _id (session e1) = _id (session e) ->
             requests_carry_id (commit e1) /\
             forall i, _id (session e) = Some i ->
                       _id (session (commit e1)) = Some i).
  { intros e1 E1 E2. unfold requests_carry_id.
    rewrite commit_inflight, commit_session, E1, E2. split; [exact J |].
    by intros i ->. }
  unfold step in St. rewrite M in St. cbn in St.
  destruct ev; try done.
  - destruct (_ && _); [| done]. injection St as <-. split; [exact J | done].
  - destruct (List.find _ _) as [p |] eqn:Fd; [| done].
    destruct (_ <=? _) eqn:Le; [| done]. injection St as <-.
    destruct T as [E | (i & d & E & X & U & S & _)];
      [rewrite E in Fd; done |].
    rewrite E in Fd. cbn in Fd. destruct (i =? id)%nat; [| done].
    injection Fd as <-. cbn [p_autoSave].
    unfold autoSave, render_closure. cbn [c_hasUnsavedChanges c_isSaving c_session].
    rewrite U, S. cbn [negb orb].
    destruct (empty_session (session e)).
    + by apply Edit.
    + unfold requests_carry_id.
      rewrite commit_inflight, commit_session. cbn.
      destruct F as [[_ ->] | [F _]]; [| congruence].
      split; [by repeat constructor | done].
  - injection St as <-.
    destruct (handleInputChange_frame (f_title value) e) as (Se & _ & _ & Fl & _).
    apply Edit; [done |]. by rewrite Se.
  - injection St as <-.
    destruct (handleInputChange_frame (f_json_file_url value) e)
      as (Se & _ & _ & Fl & _).
    apply Edit; [done |]. by rewrite Se.
  - injection St as <-. unfold handleTagInputChange.
    destruct (handleInputChange_frame (f_tags (parse_tags value))
                (setTagInput e value)) as (Se & _ & _ & Fl & _).
    apply Edit; [done |]. by rewrite Se.
  - injection St as <-. by apply Edit.
  - unfold save_disabled in St. destruct (isSaving e) eqn:S; injection St as <-.
    + split; [exact J | done].
    + split; [by apply Send |]. rewrite commit_session. done.
  - destruct (publish_disabled e) eqn:P; injection St as <-.
    + split; [exact J | done].
    + unfold publish_disabled in P. destruct (isSaving e) eqn:S; [done |].
      unfold handlePublish.
      destruct (negb (truthy (trim (title (session e))))); [by apply Edit |].
      destruct (negb (truthy (trim (json_file_url (session e)))));
        [by apply Edit |].
      destruct (negb (validateUrl _)); [by apply Edit |].
      split; [by apply Send |]. rewrite commit_session. done.
  - destruct (inflight e !! n) as [r |] eqn:L; [| done]. injection St as <-.
    destruct (answered e n r I M L) as (S & E & Dl & C & _). rewrite Dl.
    assert (Jr : _id (r_session r) = _id (session e)).
    { unfold requests_carry_id in J. rewrite E in J. by inversion J. }
    assert (K : requests_carry_id (commit (draft_saved r resp (set_inflight e []))) /\
                forall i, _id (session e) = Some i ->
                  _id (session (commit (draft_saved r resp (set_inflight e []))))
                  = Some i).
    { unfold requests_carry_id. rewrite commit_inflight, commit_session.
      unfold draft_saved. rewrite Jr.
      destruct (_id (session e)) as [j |] eqn:Ej, resp; cbn;
        (split; [apply Forall_nil_2 | intros i' Ei; congruence]). }
    destruct (r_origin r); try exact K.
    unfold publish_done, unmount, requests_carry_id.
    cbn [effect_timer setIsSaving add_toast setHasUnsavedChanges set_inflight].
    destruct (effect_timer e); cbn; (split; [apply Forall_nil_2 | done]).
  - destruct (inflight e !! n) as [r |] eqn:L; [| done]. injection St as <-.
    destruct (answered e n r I M L) as (S & E & Dl & C & _). rewrite Dl.
    unfold requests_carry_id. rewrite commit_inflight, commit_session.
    destruct (r_origin r); cbn; (split; [apply Forall_nil_2 | done]).
Qed.

(** X23.  In the editor of a new session, which loads nothing, the buffer
    keeps the identifier it has once it has one: no edit, save, publish or
    answer changes it. *)
Theorem adopted_id_is_kept tr1 tr2 t0 e1 e2 i :
  run tr1 (initial t0) = Some e1 -> run tr2 e1 = Some e2 ->
  forallb (fun ev => negb (is_load ev)) (tr1 ++ tr2) = true ->
  _id (session e1) = Some i -> _id (session e2) = Some i.
Proof.
  intros R1 R2 Nl. rewrite forallb_app in Nl.
  apply andb_true_iff in Nl as [Nl1 Nl2].
  assert (G : forall tr e e',
             inv e -> requests_carry_id e ->
             forallb (fun ev => negb (is_load ev)) tr = true ->
             run tr e = Some e' ->
             requests_carry_id e' /\
             forall i, _id (session e) = Some i -> _id (session e') = Some i).
  { clear. induction tr as [| ev tr IH]; intros e e' I J Nl; cbn.
    - intros [= <-]. done.
    - cbn in Nl. apply andb_true_iff in Nl as [Nl1 Nl2].
      apply negb_true_iff in Nl1.
      destruct (step ev e) as [e1 |] eqn:St; [| done]. intros R.
      destruct (step_keeps_id ev e e1 I J Nl1 St) as [J1 K1].
      destruct (IH e1 e' (step_inv _ _ _ I St) J1 Nl2 R) as [J2 K2].
      split; [done |]. intros j Ej. by apply K2, K1. }
  destruct (G tr1 (initial t0) e1 (initial_inv t0) (Forall_nil_2 _) Nl1 R1)
    as [J1 _].
  destruct (G tr2 e1 e2 (reachable_inv _ _ _ R1) J1 Nl2 R2) as [_ K].
  apply K.
Qed.

Lemma trim_space_cons (g : jsstring) : trim (32%N :: g) = trim g.
Proof. done. Qed.

Lemma parse_tags_join (l : list jsstring) :
  toLowerCase [] = [] -> Forall plain_tag l ->
  parse_tags (join (lit ", ") l) = l.
Proof.
  intros E0 F. unfold parse_tags. destruct l as [| p rest].
  - cbn. rewrite E0. done.
  - change (lit ", ") with (comma :: [32%N]).
    rewrite split_join.
    + assert (G : forall k : list jsstring, Forall plain_tag k ->
                 List.filter (fun tag => (0 <? length tag)%nat)
                   (List.map (fun tag => toLowerCase (trim tag))
                      (List.map (app [32%N]) k)) = k).
      { induction 1 as [| g k (Ng & _ & Tg & Lg) _ IH]; cbn [List.map List.filter];
          [done |].
        change ([32%N] ++ g) with (32%N :: g).
        rewrite trim_space_cons, Tg, Lg, IH. by destruct g. }
      apply Forall_cons in F as [(Np & _ & Tp & Lp) Fr].
      cbn [List.map List.filter]. rewrite Tp, Lp, (G _ Fr). by destruct p.
    + rewrite list_elem_of_In. vm_compute. intuition discriminate.
    + eapply Forall_impl; [exact F |]. by intros g (_ & ? & _).
Qed.

Lemma remove_index_Forall {A} (P : A -> Prop) i (l : list A) :
  Forall P l -> Forall P (remove_index i l).
Proof.
  intros F. revert i. induction F as [| x l Hx F IH]; intros [| i]; cbn;
    try done. constructor; [done | apply IH].
Qed.

(** X24.  The text of the tag input and the tags of the buffer stay in
    step: for tags that are not empty, without comma, trimmed and in lower
    case, the text that [removeTag] writes after taking a tag out, and the
    text written when a session is loaded, parse back to exactly the tags
    of the buffer. *)
Theorem tag_input_parses_back :
  toLowerCase [] = [] ->
  (forall i e,
      Forall plain_tag (tags (session e)) ->
      tags (session (removeTag i e)) = remove_index i (tags (session e)) /\
      parse_tags (tagInput (removeTag i e)) = tags (session (removeTag i e))) /\
  (forall data updated_at e,
      Forall plain_tag (tags data) ->
      parse_tags (tagInput (session_loaded data updated_at e))
      = tags (session (session_loaded data updated_at e))).
Proof.
  intros E0. split.
  - intros i e F. split; [done |]. cbn.
    apply parse_tags_join; [done |]. by apply remove_index_Forall.
  - intros data u e F. cbn. by apply parse_tags_join.
Qed.

End EditorExtras.

(** *** The added properties on concrete inputs

    As before, the evaluations use [ascii_host]. *)

Section ExtraRuns.
Import Routes.

Lemma delete_one_then_get_one_witness :
  exists s db',
    sample_db !! 0%N = Some s /\ user_id s = 1%N /\
    delete_one 1%N 0%N sample_db
      = (json_message "Session deleted successfully", db') /\
    get_one 1%N 0%N db' = not_found.
Proof.
  let r := eval vm_compute in (sample_db !! 0%N) in
  match r with
  | Some ?s =>
      exists s;
      destruct (delete_one_then_get_one 1%N 0%N sample_db s)
        as (db' & D & G & _); [by_eval .. |];
      exists db'
  end.
  split; [by_eval |]. split; [by_eval |]. split; [exact D | exact G].
Defined.

Lemma foreign_document_is_out_of_reach_witness :
  names_document 2%N 0%N (Delete 2%N 0%N) /\
  get_one 2%N 0%N sample_db = not_found /\
  snd (handle (Delete 2%N 0%N) sample_db) = sample_db.
Proof.
  split; [done |].
  destruct (foreign_document_is_out_of_reach 2%N 0%N sample_db (Delete 2%N 0%N))
    as (G & U & _); [| done | by split].
  intros s E. vm_compute in E. injection E as <-. vm_compute. discriminate.
Defined.

Lemma update_in_place_witness :
  exists old message s db',
    sample_db !! 0%N = Some old /\
    handle (SaveDraft 1%N 30 morning_flow_again) sample_db
      = (json_saved message s, db') /\
    _id s = _id old /\ created_at s = created_at old /\ updated_at s = 30.
Proof.
  let r := eval vm_compute in (sample_db !! 0%N) in
  let h := eval vm_compute in
             (handle (SaveDraft 1%N 30 morning_flow_again) sample_db) in
  match r with
  | Some ?old =>
      match h with
      | (json_saved ?m ?s, ?db') =>
          exists old, m, s, db';
          destruct (update_in_place 1%N 30 morning_flow_again sample_db 0%N
                      old (SaveDraft 1%N 30 morning_flow_again) m s db')
            as (_ & I & _ & C & U & _); [by_eval | by_eval | by left | by_eval |]
      end
  end.
  split; [by_eval |]. split; [by_eval |]. by repeat split.
Defined.

Lemma editor_saves_never_update_witness :
  exists message s,
    handle (SaveDraft 1%N 30
              (Api.post_body (Editor.with_id Editor.initial_session 0%N)))
      sample_db
      = (json_saved message s, <[_id s := s]> sample_db) /\
    sample_db !! _id s = None.
Proof.
  destruct (editor_saves_never_update
              (Editor.with_id Editor.initial_session 0%N) 1%N 30 sample_db
              (SaveDraft 1%N 30
                 (Api.post_body (Editor.with_id Editor.initial_session 0%N))))
    as [(m & s & E & N & _) | (err & E)]; [by left | by eauto |].
  vm_compute in E. discriminate.
Defined.

Lemma routes_keep_schema_witness :
  exists s,
    serve sample_writes ∅ !! 1%N = Some s /\ _id s = 1%N /\ schema_valid s.
Proof.
  let r := eval vm_compute in (serve sample_writes ∅ !! 1%N) in
  match r with
  | Some ?s =>
      exists s; split; [by_eval |];
      apply (routes_keep_schema sample_writes 1%N s); by_eval
  end.
Defined.

Lemma get_sessions_only_published_witness :
  exists x,
    x ∈ Listing.sessions
          (Listing.get_sessions (fun _ _ => true) ∅ first_page sample_db) /\
    status (Listing.session x) = published /\
    lit "calm" ∈ tags (Listing.session x).
Proof.
  let r := eval vm_compute in
             (Listing.sessions
                (Listing.get_sessions (fun _ _ => true) ∅ first_page sample_db)) in
  match r with
  | [?x] =>
      assert (E : x ∈ Listing.sessions
                        (Listing.get_sessions (fun _ _ => true) ∅ first_page
                           sample_db))
        by (vm_compute; apply list_elem_of_here);
      exists x; split; [exact E |];
      split; [exact (proj1 (get_sessions_only_published _ _ _ _ _ E)) |]
  end.
  vm_compute. apply list_elem_of_here.
Defined.

Lemma get_my_sessions_only_own_witness :
  exists s,
    s ∈ fst (Listing.get_my_sessions 1%N my_drafts sample_db) /\
    user_id s = 1%N /\ status s = draft.
Proof.
  let r := eval vm_compute in
             (fst (Listing.get_my_sessions 1%N my_drafts sample_db)) in
  match r with
  | [?s] =>
      assert (E : s ∈ fst (Listing.get_my_sessions 1%N my_drafts sample_db))
        by (vm_compute; apply list_elem_of_here);
      exists s; split; [exact E |];
      destruct (get_my_sessions_only_own 1%N my_drafts sample_db s E)
        as (U & _ & D & _)
  end.
  split; [exact U | by apply D].
Defined.

Lemma get_my_sessions_ignores_other_status_witness :
  lit "archived" <> lit "draft" /\ lit "archived" <> lit "published" /\
  Listing.get_my_sessions 1%N
    {| Listing.my_status := Some (lit "archived");
       Listing.my_page := 1; Listing.my_limit := 20 |} sample_db
  = Listing.get_my_sessions 1%N
      {| Listing.my_status := None;
         Listing.my_page := 1; Listing.my_limit := 20 |} sample_db.
Proof.
  split; [discriminate |]. split; [discriminate |].
  apply get_my_sessions_ignores_other_status; discriminate.
Defined.

Lemma pages_of_lists_witness :
  1 <= Listing.page first_page /\ 1 <= Listing.limit first_page /\
  1 <= Listing.my_page my_drafts /\ 1 <= Listing.my_limit my_drafts /\
  totalSessions
    (Listing.pagination
       (Listing.get_sessions (fun _ _ => true) ∅ first_page sample_db))
  = Z.of_nat
      (length
         (Listing.find_sorted
            (Listing.matches_published (fun _ _ => true) first_page)
            sample_db)).
Proof.
  do 4 (split; [cbn; lia |]).
  refine (proj1 (proj2 (proj2 (proj1
            (pages_of_lists (fun _ _ => true) ∅ 1%N first_page my_drafts
               sample_db _ _ _ _))))); cbn; lia.
Defined.

Lemma my_sessions_page_counts_witness :
  let c := MySessions.getSessionCounts
             (fst (Listing.get_my_sessions 1%N
                     {| Listing.my_status :=
                          MySessions.params (MySessions.only draft);
                        Listing.my_page := 1; Listing.my_limit := 20 |}
                     sample_db)) in
  MySessions.count_draft c = MySessions.count_all c /\
  MySessions.count_published c = 0%nat /\
  MySessions.count_all c = 1%nat.
Proof.
  destruct (my_sessions_page_counts 1%N (MySessions.only draft) 1 20 sample_db)
    as (_ & _ & D & _ & A & _).
  destruct (D eq_refl) as [Dd Dp].
  split; [exact Dd |]. split; [exact Dp |].
  rewrite A. by_eval.
Defined.

Lemma my_sessions_after_delete_witness :
  exists s db',
    delete_one 1%N 0%N sample_db
      = (json_message "Session deleted successfully", db') /\
    s ∈ MySessions.deleted 0%N (map_to_list sample_db).*2 /\ _id s <> 0%N.
Proof.
  let r := eval vm_compute in
             (MySessions.deleted 0%N (map_to_list sample_db).*2) in
  let d := eval vm_compute in (delete_one 1%N 0%N sample_db) in
  match r with
  | [?s] =>
      match d with
      | (_, ?db') =>
          assert (E : s ∈ MySessions.deleted 0%N (map_to_list sample_db).*2)
            by (vm_compute; apply list_elem_of_here);
          exists s, db'; split; [by_eval |]; split; [exact E |];
          refine (proj1 (proj2
                    (my_sessions_after_delete 1%N 0%N sample_db db'
                       "Session deleted successfully" _ s _ E)));
          by_eval
      end
  end.
Defined.

Lemma toggleTag_selection_witness :
  NoDup [lit "yoga"] /\
  Dashboard.toggleTag (lit "calm")
    (Dashboard.toggleTag (lit "calm") [lit "yoga"]) = [lit "yoga"].
Proof.
  split; [apply NoDup_singleton |].
  apply (toggleTag_selection (lit "calm") [lit "yoga"]);
    [apply NoDup_singleton |].
  rewrite list_elem_of_singleton. discriminate.
Defined.

Lemma selected_tags_reach_the_query_witness :
  exists t,
    Dashboard.tags (Dashboard.handleSearch [] [lit "yoga"; lit "calm"]) = Some t /\
    Listing.tagArray t = [lit "yoga"; lit "calm"].
Proof.
  destruct (selected_tags_reach_the_query [] [lit "yoga"; lit "calm"])
    as (t & E & _ & A).
  { repeat constructor; try discriminate;
      rewrite list_elem_of_In; vm_compute; intuition discriminate. }
  exists t. split; [exact E | exact A].
Defined.

Lemma authenticateToken_lets_through_witness :
  Auth.authenticateToken (fun _ => Auth.decoded 1%N) {[1%N]}
    (Some (lit "Bearer abc.def.ghi")) = Auth.next 1%N.
Proof.
  apply (proj1 (authenticateToken_lets_through (fun _ => Auth.decoded 1%N)
                  {[1%N]} (Some (lit "Bearer abc.def.ghi")))).
  exists (lit "abc.def.ghi"). split; [by_eval |]. split; [discriminate |].
  split; [reflexivity | set_solver].
Defined.

Lemma login_then_requests_witness :
  AuthContext.nonempty "abc.def.ghi" = true /\
  AuthContext.authorization
    (AuthContext.login id "abc.def.ghi" "{}" stored_session)
  = Some "Bearer abc.def.ghi".
Proof.
  split; [reflexivity |].
  refine (proj1 (proj2 (proj2
            (login_then_requests id "abc.def.ghi" "{}" stored_session _ _))));
    [reflexivity |].
  rewrite list_elem_of_In. vm_compute. intuition discriminate.
Defined.


Lemma refusals_with_401_tear_down_witness :
  Auth.token_of (Some (lit "Bearer")) = None /\
  exists error,
    Auth.authenticateToken (fun _ => Auth.decoded 1%N) {[1%N]}
      (Some (lit "Bearer"))
    = Auth.respond 401 error.
Proof.
  split; [reflexivity |].
  refine (proj1 (refusals_with_401_tear_down (fun _ => Auth.decoded 1%N)
                   {[1%N]} (Some (lit "Bearer")) _)).
  by left.
Defined.

End ExtraRuns.

Section ExtraEditorRuns.
Import Editor.


Lemma resolved_save_marks_clean_witness :
  exists e r e',
    run [ChangeTitle (lit "a"); Elapse 5000; Fire 1; Elapse 100;
         ChangeTitle (lit "ab")] (initial 0) = Some e /\
    inflight e !! 0%nat = Some r /\ r_origin r <> from_handlePublish /\
    step (Resolved 0 (Some 7%N)) e = Some e' /\
    hasUnsavedChanges e' = false /\ _id (session e') = Some 7%N.
Proof.
  let r := eval vm_compute in
             (run [ChangeTitle (lit "a"); Elapse 5000; Fire 1; Elapse 100;
                   ChangeTitle (lit "ab")] (initial 0)) in
  match r with
  | Some ?e =>
      let q := eval vm_compute in (inflight e !! 0%nat) in
      let r' := eval vm_compute in (step (Resolved 0 (Some 7%N)) e) in
      match q with
      | Some ?rq =>
          match r' with
          | Some ?e' =>
              exists e, rq, e';
              pose proof (resolved_save_marks_clean
                            [ChangeTitle (lit "a"); Elapse 5000; Fire 1;
                             Elapse 100; ChangeTitle (lit "ab")]
                            0 e 0%nat (Some 7%N) rq e') as W
          end
      end
  end.
  split; [by_eval |]. split; [by_eval |]. split; [discriminate |].
  split; [by_eval |].
  destruct W as (_ & U & _ & _ & _ & _ & _ & _ & _ & I);
    [by_eval | by_eval | discriminate | by_eval |].
  split; [exact U | exact I].
Defined.

Lemma resolved_publish_leaves_witness :
  exists e r e',
    run [ChangeTitle (lit "a"); ClickPublish] (initial 0) = Some e /\
    inflight e !! 0%nat = Some r /\ r_origin r = from_handlePublish /\
    step (Resolved 0 None) e = Some e' /\
    mounted e' = false /\ timeouts e' = [].
Proof.
  let r := eval vm_compute in
             (run [ChangeTitle (lit "a"); ClickPublish] (initial 0)) in
  match r with
  | Some ?e =>
      let q := eval vm_compute in (inflight e !! 0%nat) in
      let r' := eval vm_compute in (step (Resolved 0 None) e) in
      match q with
      | Some ?rq =>
          match r' with
          | Some ?e' =>
              exists e, rq, e';
              pose proof (resolved_publish_leaves
                            [ChangeTitle (lit "a"); ClickPublish]
                            0 e 0%nat None rq e') as W
          end
      end
  end.
  do 4 (split; [by_eval |]).
  destruct W as (M & T & _); [by_eval .. |].
  split; [exact M | exact T].
Defined.

Lemma adopted_id_is_kept_witness :
  exists e1 e2,
    run [ChangeTitle (lit "a"); ClickSaveDraft; Resolved 0 (Some 7%N)]
      (initial 0) = Some e1 /\
    run [ChangeTitle (lit "ab"); ClickSaveDraft; Resolved 0 (Some 8%N)] e1
      = Some e2 /\
    _id (session e1) = Some 7%N /\ _id (session e2) = Some 7%N.
Proof.
  let r := eval vm_compute in
             (run [ChangeTitle (lit "a"); ClickSaveDraft; Resolved 0 (Some 7%N)]
                (initial 0)) in
  match r with
  | Some ?e1 =>
      let r' := eval vm_compute in
                  (run [ChangeTitle (lit "ab"); ClickSaveDraft;
                        Resolved 0 (Some 8%N)] e1) in
      match r' with
      | Some ?e2 =>
          exists e1, e2;
          pose proof (adopted_id_is_kept
                        [ChangeTitle (lit "a"); ClickSaveDraft;
                         Resolved 0 (Some 7%N)]
                        [ChangeTitle (lit "ab"); ClickSaveDraft;
                         Resolved 0 (Some 8%N)]
                        0 e1 e2 7%N) as W
      end
  end.
  do 3 (split; [by_eval |]). apply W; by_eval.
Defined.

Lemma tag_input_parses_back_witness :
  toLowerCase [] = [] /\
  exists e,
    run [ChangeTagInput (lit "Yoga, Calm")] (initial 0) = Some e /\
    Forall plain_tag (tags (session e)) /\
    parse_tags (tagInput (removeTag 0 e)) = [lit "calm"].
Proof.
  split; [reflexivity |].
  let r := eval vm_compute in (run [ChangeTagInput (lit "Yoga, Calm")] (initial 0)) in
  match r with
  | Some ?e =>
      exists e;
      assert (F : Forall plain_tag (tags (session e)))
  end.
  { repeat constructor; try discriminate; try reflexivity;
      rewrite list_elem_of_In; vm_compute; intuition discriminate. }
  split; [by_eval |]. split; [exact F |].
  match goal with
  | |- parse_tags (tagInput (removeTag 0 ?e)) = _ =>
      exact (proj2 (proj1 (tag_input_parses_back eq_refl) 0%nat e F))
  end.
Defined.

End ExtraEditorRuns.
